(** * Ultralytics command runner: argument translation, process outcome
      handling and metrics extraction

    A shallow embedding of [app/ultra.py] and of [process_request_args]
    from [app/main.py].

    Conventions of the embedding.
    - A Python [str] is a Rocq [string]; its characters are the code
      points below 256 (Rocq's [ascii] read as Latin-1).  The regular
      expression scans work on the list of characters of the text.
    - A Python [dict] whose iteration order is observable (the parameter
      mapping) is an association list in insertion order; the metrics
      mapping, which is only ever looked up by key, is a [gmap].
    - What the code obtains from outside the interpreter (the outcome of
      [subprocess.run], the directory walks, opening and decoding a file,
      accelerator detection) is read from a [World] record.
    - An exception raised inside a function is a [Raise] result. *)

From Stdlib Require Import ZArith Ascii String List Lia Sorted.
From stdpp Require Import gmap strings list pretty.

Set Warnings "-register-all".

Open Scope string_scope.
Open Scope list_scope.

(** The characters of a Python string. *)
Abbreviation text := (list ascii).

Definition chars (s : string) : text := list_ascii_of_string s.
Definition str_of (t : text) : string := string_of_list_ascii t.

(* ------------------------------------------------------------------ *)
(** ** The fragment of [re] used by the scans *)
(* ------------------------------------------------------------------ *)

Module Re.

(** Character classes, on code points below 256.  [\d] is the Unicode
    decimal digits (only 0-9 in this range); [\s] is the Unicode white
    space of [str] patterns: TAB, LF, VT, FF, CR, FS, GS, RS, US, SPACE,
    NEL and NBSP; [.] is anything but LF. *)
Definition code (c : ascii) : N := N_of_ascii c.

Definition is_digit (c : ascii) : bool :=
  ((48 <=? code c) && (code c <=? 57))%N.

Definition is_space (c : ascii) : bool :=
  (((9 <=? code c) && (code c <=? 13))
   || ((28 <=? code c) && (code c <=? 32))
   || (code c =? 133) || (code c =? 160))%N.

Definition is_digit_or_dot (c : ascii) : bool :=
  is_digit c || (code c =? 46)%N.

Definition is_not_newline (c : ascii) : bool :=
  negb (code c =? 10)%N.

(** A pattern is a sequence of items: a literal, or a greedy repetition
    [cls{lo,}] of a character class, captured ([(cls+)]) or not
    ([\s+], [\s*]).  Every pattern of the source has this shape. *)
Inductive item : Type :=
| Lit (l : text)
| Rep (capture : bool) (cls : ascii -> bool) (lo : nat).

Definition pattern := list item.

Fixpoint strip_prefix (l s : text) : option text :=
  match l with
  | [] => Some s
  | a :: l' =>
      match s with
      | [] => None
      | c :: s' => if Ascii.eqb a c then strip_prefix l' s' else None
      end
  end.

(** Greedy repetition with backtracking: take characters of the class
    while possible, then hand over to the continuation [k]; when the
    continuation fails, give the last character back and try again,
    down to [lo] characters. *)
Fixpoint rep {R : Type} (cls : ascii -> bool) (lo : nat)
    (k : text -> text -> option R) (taken s : text) : option R :=
  let stop := if (lo <=? length taken)%nat then k taken s else None in
  match s with
  | c :: s' =>
      if cls c then
        match rep cls lo k (taken ++ [c]) s' with
        | Some r => Some r
        | None => stop
        end
      else stop
  | [] => stop
  end.

(** [match_here p s]: the match of [p] anchored at the start of [s],
    as the groups captured and the text remaining after the match. *)
Fixpoint match_here (p : pattern) (s : text) : option (list text * text) :=
  match p with
  | [] => Some ([], s)
  | Lit l :: p' =>
      match strip_prefix l s with
      | Some s' => match_here p' s'
      | None => None
      end
  | Rep capture cls lo :: p' =>
      rep cls lo
        (fun taken rest =>
           match match_here p' rest with
           | Some (groups, remaining) =>
               Some (if capture then taken :: groups else groups, remaining)
           | None => None
           end)
        [] s
  end.

(** [re.findall]: scan from left to right; a match found at a position
    is recorded and the scan resumes after it ([skip] counts the
    characters of the match still to pass over); otherwise the scan
    moves one character on.  No pattern of the source matches the empty
    text, so no attempt is made at the end of the text. *)
Fixpoint findall_from (p : pattern) (skip : nat) (s : text)
    : list (list text) :=
  match s with
  | [] => []
  | _ :: s' =>
      match skip with
      | S n => findall_from p n s'
      | O =>
          match match_here p s with
          | Some (groups, remaining) =>
              groups :: findall_from p (length s - length remaining - 1) s'
          | None => findall_from p 0 s'
          end
      end
  end.

Definition findall (p : pattern) (s : string) : list (list text) :=
  findall_from p 0 (chars s).

(** [matches[-1]] on a non-empty list. *)
Definition last_match (ms : list (list text)) : option (list text) :=
  last ms.

(** The first and second group of a match. *)
Definition group1 (m : list text) : text := nth 0 m [].
Definition group2 (m : list text) : text := nth 1 m [].

End Re.

(* ------------------------------------------------------------------ *)
(** ** Python values and built-ins *)
(* ------------------------------------------------------------------ *)

Module Py.

(** The outcome of a call that may raise: the value returned, or
    [str(e)] of the exception [e] raised. *)
Inductive result (A : Type) : Type :=
| Ok (a : A)
| Raise (msg : string).
Arguments Ok {A} a.
Arguments Raise {A} msg.

Definition bind {A B : Type} (r : result A) (f : A -> result B) : result B :=
  match r with
  | Ok a => f a
  | Raise msg => Raise msg
  end.

Definition is_ok {A : Type} (r : result A) : bool :=
  match r with Ok _ => true | Raise _ => false end.

(** A [float].  [Finite mantissa exponent] is the double nearest to the
    decimal number [mantissa * 10^exponent]; that double is finite, and
    it is zero only when the mantissa is.  Two decimals can have the
    same nearest double: equal values here are equal floats, and
    nothing below tells two floats apart.  The infinities and the
    not-a-number have their own constructors. *)
Inductive pyfloat : Type :=
| Finite (mantissa exponent : Z)
| Infinity (negative : bool)
| NaN.

Inductive pyvalue : Type :=
| PNone
| PBool (b : bool)
| PInt (z : Z)
| PFloat (f : pyfloat)
| PStr (s : string)
| PList (l : list pyvalue)
| PDict (d : list (string * pyvalue)).

(** An insertion-ordered [dict] with [str] keys. *)
Definition dict := list (string * pyvalue).

Fixpoint dict_get (k : string) (d : dict) : option pyvalue :=
  match d with
  | [] => None
  | (k', v) :: d' => if String.eqb k k' then Some v else dict_get k d'
  end.

(** [d[k] = v]: an existing key keeps its place, a new key goes last. *)
Fixpoint dict_set (k : string) (v : pyvalue) (d : dict) : dict :=
  match d with
  | [] => [(k, v)]
  | (k', v') :: d' =>
      if String.eqb k k' then (k', v) :: d' else (k', v') :: dict_set k v d'
  end.

Fixpoint dict_remove (k : string) (d : dict) : dict :=
  match d with
  | [] => []
  | (k', v') :: d' =>
      if String.eqb k k' then d' else (k', v') :: dict_remove k d'
  end.

(** [d.pop(k, default)]: the value removed (or the default) and the
    dictionary afterwards. *)
Definition dict_pop (k : string) (default : pyvalue) (d : dict)
    : pyvalue * dict :=
  match dict_get k d with
  | Some v => (v, dict_remove k d)
  | None => (default, d)
  end.

(** Truth value of an object, as tested by [if x:]. *)
Definition truthy (v : pyvalue) : bool :=
  match v with
  | PNone => false
  | PBool b => b
  | PInt z => negb (z =? 0)%Z
  | PFloat (Finite mantissa _) => negb (mantissa =? 0)%Z
  | PFloat _ => true
  | PStr s => negb (String.eqb s "")
  | PList l => match l with [] => false | _ => true end
  | PDict d => match d with [] => false | _ => true end
  end.

Definition type_name (v : pyvalue) : string :=
  match v with
  | PNone => "NoneType"
  | PBool _ => "bool"
  | PInt _ => "int"
  | PFloat _ => "float"
  | PStr _ => "str"
  | PList _ => "list"
  | PDict _ => "dict"
  end.

Section Str.

(** [str()] of a float, a list or a dict (shortest round-trip digits,
    quoting of nested strings) is taken as given. *)
Variable str_other : pyvalue -> string.

(** [str(value)], which is also what an f-string field [{value}]
    produces for these types. *)
Definition py_str (v : pyvalue) : string :=
  match v with
  | PNone => "None"
  | PBool true => "True"
  | PBool false => "False"
  | PInt z => pretty z
  | PStr s => s
  | _ => str_other v
  end.

End Str.

(** The number that a text of decimal digits denotes. *)
Definition digit_value (c : ascii) : Z := Z.of_N (Re.code c) - 48.

Definition int_value (t : text) : Z :=
  fold_left (fun acc c => 10 * acc + digit_value c)%Z t 0%Z.

(** The interpreter's limit on the digits of a conversion between [str]
    and [int], at its default. *)
Definition int_max_str_digits : nat := 4300.

(** [int(t)] for a text of decimal digits: the number denoted, or the
    [ValueError] of the empty text, or that of a text with more digits
    than the limit. *)
Definition py_int (t : text) : result Z :=
  match t with
  | [] => Raise "invalid literal for int() with base 10: ''"
  | _ :: _ =>
      if (length t <=? int_max_str_digits)%nat then Ok (int_value t)
      else
        Raise ("Exceeds the limit (" +:+ pretty int_max_str_digits
               +:+ " digits) for integer string conversion: value has "
               +:+ pretty (length t)
               +:+ " digits; use sys.set_int_max_str_digits() to increase"
               +:+ " the limit")
  end.

Definition dot : ascii := ascii_of_nat 46.

Definition is_dot (c : ascii) : bool := Ascii.eqb c dot.

(** [float(t)] for a text of digits and dots: the literal is accepted
    when it has at least one digit and at most one dot; otherwise
    [ValueError] is raised with the message below.  The number denoted
    is rounded to the nearest double, ties to even: from half the
    smallest positive double ([2^-1075]) down it becomes zero, from the
    middle between the largest double and [2^1024] up it becomes
    infinity. *)
Definition float_literal_ok (t : text) : bool :=
  existsb Re.is_digit t && (length (List.filter is_dot t) <=? 1)%nat.

Fixpoint fraction_digits (t : text) : nat :=
  match t with
  | [] => 0
  | c :: t' => if is_dot c then length t' else fraction_digits t'
  end.

Definition float_overflow : Z := (2 ^ 1024 - 2 ^ 970)%Z.

Definition round_decimal (mantissa : Z) (fraction : nat) : pyfloat :=
  let scale := (10 ^ Z.of_nat fraction)%Z in
  if (mantissa * 2 ^ 1075 <=? scale)%Z then Finite 0 0
  else if (float_overflow * scale <=? mantissa)%Z then Infinity false
  else Finite mantissa (- Z.of_nat fraction).

Definition py_float (t : text) : result pyfloat :=
  if float_literal_ok t then
    Ok (round_decimal
          (int_value (List.filter (fun c => negb (is_dot c)) t))
          (fraction_digits t))
  else
    Raise ("could not convert string to float: '" +:+ str_of t +:+ "'").

(** [s.strip()]: white space removed at both ends. *)
Fixpoint lstrip (t : text) : text :=
  match t with
  | c :: t' => if Re.is_space c then lstrip t' else t
  | [] => []
  end.

Definition strip (t : text) : text := rev (lstrip (rev (lstrip t))).

(** [s.endswith(suffix)]. *)
Definition endswith (s suffix : string) : bool :=
  match Re.strip_prefix (rev (chars suffix)) (rev (chars s)) with
  | Some _ => true
  | None => false
  end.

(** [s.startswith(prefix)]. *)
Definition startswith (s prefix : string) : bool :=
  match Re.strip_prefix (chars prefix) (chars s) with
  | Some _ => true
  | None => false
  end.

(** [sep.join(parts)]. *)
Definition join (sep : string) (parts : list string) : string :=
  String.concat sep parts.

(** [sorted(l)] for a list of strings: ascending in the code point
    order.  Equal strings are indistinguishable, so any sorting
    algorithm returns the list that [sorted] returns. *)
Fixpoint insert_sorted (x : string) (l : list string) : list string :=
  match l with
  | [] => [x]
  | y :: l' => if String.leb x y then x :: l else y :: insert_sorted x l'
  end.

Definition sorted (l : list string) : list string :=
  fold_right insert_sorted [] l.

(** [os.path.join(root, file)] for a file name yielded by [os.walk]
    (POSIX separator). *)
Definition os_path_join (root file : string) : string :=
  if String.eqb root "" || endswith root "/" then root +:+ file
  else root +:+ "/" +:+ file.

(** [Path(p).stem]: the final component of the path, without its last
    suffix; a leading or a final dot does not start a suffix.  The
    components of a path are the texts between its slashes; empty
    components and the components [.] do not count. *)
Definition slash : ascii := ascii_of_nat 47.

Fixpoint take_until (stop : ascii -> bool) (t : text) : text :=
  match t with
  | c :: t' => if stop c then [] else c :: take_until stop t'
  | [] => []
  end.

Fixpoint drop_through (stop : ascii -> bool) (t : text) : option text :=
  match t with
  | c :: t' => if stop c then Some t' else drop_through stop t'
  | [] => None
  end.

Definition is_slash (c : ascii) : bool := Ascii.eqb c slash.

(** A component that counts. *)
Definition real_component (component : text) : bool :=
  match component with
  | [] => false
  | [c] => negb (is_dot c)
  | _ => true
  end.

(** The last component that counts, reading the path from its end;
    [component] holds the characters read since the last slash. *)
Fixpoint last_component (reversed component : text) : text :=
  match reversed with
  | [] => if real_component component then component else []
  | c :: reversed' =>
      if is_slash c then
        if real_component component then component
        else last_component reversed' []
      else last_component reversed' (c :: component)
  end.

(** [Path(p).name] *)
Definition path_name (p : text) : text := last_component (rev p) [].

Definition name_stem (name : text) : text :=
  let suffix_rev := take_until is_dot (rev name) in
  match drop_through is_dot (rev name) with
  | Some prefix_rev =>
      match prefix_rev, suffix_rev with
      | _ :: _, _ :: _ => rev prefix_rev
      | _, _ => name
      end
  | None => name
  end.

Definition path_stem (p : string) : string :=
  str_of (name_stem (path_name (chars p))).

End Py.

(* ------------------------------------------------------------------ *)
(** ** The environment of a call *)
(* ------------------------------------------------------------------ *)

Module Env.
Import Py.

(** The exceptions that [run_ultralytics] distinguishes.
    [OtherException msg] stands for any other [Exception], for instance
    the [FileNotFoundError] or [PermissionError] of an executable that
    cannot be launched; [msg] is [str(e)]. *)
Inductive exn : Type :=
| TimeoutExpired
| CalledProcessError (returncode : Z) (stdout stderr : option string)
| OtherException (msg : string).

(** What [subprocess.run(..., capture_output=True, text=True,
    timeout=3600)] does: it returns a completed process, whatever its
    exit status (on POSIX a process killed by signal [n] has the status
    [-n]), or it raises. *)
Inductive run_outcome : Type :=
| Completed (returncode : Z) (stdout stderr : string)
| Raised (e : exn).

Record World : Type := {
  (** module-level flag set by [import torch] *)
  TORCH_AVAILABLE : bool;
  (** [torch.cuda.is_available()] *)
  cuda_is_available : bool;
  (** outcome of [subprocess.run] on a command *)
  subprocess_run : list string -> run_outcome;
  (** [os.path.exists] *)
  path_exists : string -> bool;
  (** [os.walk(top)]: for each directory visited, its path and the names
      of its files *)
  os_walk : string -> list (string * list string);
  (** [os.path.relpath] *)
  os_path_relpath : string -> string;
  (** [open(path, 'r', encoding='utf-8')] and reading the file *)
  open_file : string -> result string;
  (** [json.load] on the content read *)
  json_load : string -> result pyvalue;
  (** [yaml.safe_load] on the content read *)
  yaml_safe_load : string -> result pyvalue
}.

End Env.

(* ------------------------------------------------------------------ *)
(** ** [app/ultra.py] *)
(* ------------------------------------------------------------------ *)

Module Ultra.
Import Py Env.

(** The metrics mapping. *)
Abbreviation MetricsMap := (gmap string pyvalue).

(** [metrics.update(other)]: the entries of [other] win. *)
Definition update (metrics other : MetricsMap) : MetricsMap :=
  other ∪ metrics.

Definition newline : string := String (ascii_of_nat 10) "".

(** *** The patterns *)

(** [r"Epoch\s+(\d+)/(\d+)"] *)
Definition epoch_pattern : Re.pattern :=
  [Re.Lit (chars "Epoch"); Re.Rep false Re.is_space 1;
   Re.Rep true Re.is_digit 1; Re.Lit (chars "/"); Re.Rep true Re.is_digit 1].

(** [label + r":\s*([\d.]+)"], the shape of the loss, mAP, precision
    and recall patterns. *)
Definition labelled_number (label : string) : Re.pattern :=
  [Re.Lit (chars (label +:+ ":")); Re.Rep false Re.is_space 0;
   Re.Rep true Re.is_digit_or_dot 1].

Definition loss_patterns : list (string * Re.pattern) :=
  [("box_loss", labelled_number "box_loss");
   ("obj_loss", labelled_number "obj_loss");
   ("cls_loss", labelled_number "cls_loss");
   ("total_loss", labelled_number "total_loss")].

Definition map_patterns : list (string * Re.pattern) :=
  [("mAP50", labelled_number "mAP50");
   ("mAP50-95", labelled_number "mAP50-95")].

Definition precision_pattern : Re.pattern := labelled_number "Precision".
Definition recall_pattern : Re.pattern := labelled_number "Recall".

(** [r"inference:\s*([\d.]+)ms"] *)
Definition inference_pattern : Re.pattern :=
  [Re.Lit (chars "inference:"); Re.Rep false Re.is_space 0;
   Re.Rep true Re.is_digit_or_dot 1; Re.Lit (chars "ms")].

(** [r"(\d+)\s+detections"] *)
Definition detection_pattern : Re.pattern :=
  [Re.Rep true Re.is_digit 1; Re.Rep false Re.is_space 1;
   Re.Lit (chars "detections")].

(** [r"Export complete \(([\d.]+)s\)"] *)
Definition export_pattern : Re.pattern :=
  [Re.Lit (chars "Export complete ("); Re.Rep true Re.is_digit_or_dot 1;
   Re.Lit (chars "s)")].

(** [r"Results saved to (.+)"] *)
Definition file_pattern : Re.pattern :=
  [Re.Lit (chars "Results saved to "); Re.Rep true Re.is_not_newline 1].

(** *** The scans *)

(** [matches = re.findall(pattern, output)] followed by
    [if matches: metrics[name] = float(matches[-1])]. *)
Definition scan_float (name : string) (p : Re.pattern) (output : string)
    (metrics : MetricsMap) : result MetricsMap :=
  match Re.last_match (Re.findall p output) with
  | Some m =>
      bind (py_float (Re.group1 m))
        (fun f => Ok (<[name := PFloat f]> metrics))
  | None => Ok metrics
  end.

(** The same with [int(matches[-1])]. *)
Definition scan_int (name : string) (p : Re.pattern) (output : string)
    (metrics : MetricsMap) : result MetricsMap :=
  match Re.last_match (Re.findall p output) with
  | Some m =>
      bind (py_int (Re.group1 m))
        (fun n => Ok (<[name := PInt n]> metrics))
  | None => Ok metrics
  end.

(** [for name, pattern in patterns.items(): ...] *)
Fixpoint scan_floats (patterns : list (string * Re.pattern))
    (output : string) (metrics : MetricsMap) : result MetricsMap :=
  match patterns with
  | [] => Ok metrics
  | (name, p) :: rest =>
      bind (scan_float name p output metrics) (scan_floats rest output)
  end.

Definition _parse_training_metrics (output : string) : result MetricsMap :=
  let metrics : MetricsMap := ∅ in
  bind (match Re.last_match (Re.findall epoch_pattern output) with
        | Some last_epoch =>
            bind (py_int (Re.group1 last_epoch)) (fun current =>
            let metrics := <["current_epoch" := PInt current]> metrics in
            bind (py_int (Re.group2 last_epoch)) (fun total =>
            Ok (<["total_epochs" := PInt total]> metrics)))
        | None => Ok metrics
        end)
    (fun metrics =>
       bind (scan_floats loss_patterns output metrics)
         (fun metrics => scan_floats map_patterns output metrics)).

Definition _parse_validation_metrics (output : string) : result MetricsMap :=
  let metrics : MetricsMap := ∅ in
  let precision_matches := Re.findall precision_pattern output in
  let recall_matches := Re.findall recall_pattern output in
  bind (match Re.last_match precision_matches with
        | Some m =>
            bind (py_float (Re.group1 m))
              (fun f => Ok (<["precision" := PFloat f]> metrics))
        | None => Ok metrics
        end)
    (fun metrics =>
       match Re.last_match recall_matches with
       | Some m =>
           bind (py_float (Re.group1 m))
             (fun f => Ok (<["recall" := PFloat f]> metrics))
       | None => Ok metrics
       end).

Definition _parse_prediction_metrics (output : string) : result MetricsMap :=
  let metrics : MetricsMap := ∅ in
  bind (scan_float "inference_time_ms" inference_pattern output metrics)
    (fun metrics =>
       scan_int "total_detections" detection_pattern output metrics).

Definition _parse_export_metrics (output : string) : result MetricsMap :=
  let metrics : MetricsMap := ∅ in
  bind (scan_float "export_time_s" export_pattern output metrics)
    (fun metrics =>
       match Re.last_match (Re.findall file_pattern output) with
       | Some m =>
           Ok (<["exported_file" := PStr (str_of (strip (Re.group1 m)))]>
                 metrics)
       | None => Ok metrics
       end).

(** *** Result files and artifacts *)

Definition search_paths : list string :=
  ["runs/train"; "runs/val"; "runs/predict"; "runs/export"; "runs/track";
   "runs/benchmark"].

Definition is_results_file (file : string) : bool :=
  endswith file ".yaml" || endswith file ".yml" || endswith file ".json".

Definition _find_results_files (w : World) : list string :=
  flat_map
    (fun search_path =>
       if path_exists w search_path then
         flat_map
           (fun '(root, files) =>
              map (os_path_join root) (List.filter is_results_file files))
           (os_walk w search_path)
       else [])
    search_paths.

Definition file_key (file_path : string) : string :=
  "file_" +:+ path_stem file_path.

Definition file_error_key (file_path : string) : string :=
  "file_" +:+ path_stem file_path +:+ "_error".

Definition _parse_results_file (w : World) (file_path : string) : MetricsMap :=
  let metrics : MetricsMap := ∅ in
  let attempt : result MetricsMap :=
    bind (open_file w file_path)
      (fun f =>
         if endswith file_path ".json" then
           bind (json_load w f)
             (fun data => Ok (<[file_key file_path := data]> metrics))
         else if endswith file_path ".yaml" || endswith file_path ".yml" then
           bind (yaml_safe_load w f)
             (fun data => Ok (<[file_key file_path := data]> metrics))
         else Ok metrics) in
  match attempt with
  | Ok metrics => metrics
  | Raise msg => <[file_error_key file_path := PStr msg]> metrics
  end.

Definition output_dirs : list string :=
  ["runs"; "weights"; "results"; "exports"].

Definition _find_artifacts (w : World) : list string :=
  sorted
    (flat_map
       (fun output_dir =>
          if path_exists w output_dir then
            flat_map
              (fun '(root, files) =>
                 map (fun file => os_path_relpath w (os_path_join root file))
                   files)
              (os_walk w output_dir)
          else [])
       output_dirs).

(** *** Metrics from the captured output *)

(** [for file_path in results_files: metrics.update(...)] *)
Definition collect_files (w : World) (results_files : list string)
    (metrics : MetricsMap) : MetricsMap :=
  fold_left (fun metrics file_path =>
               update metrics (_parse_results_file w file_path))
    results_files metrics.

Definition _parse_metrics_from_output (w : World) (stdout stderr : string)
    : result MetricsMap :=
  let metrics : MetricsMap := ∅ in
  let full_output := stdout +:+ newline +:+ stderr in
  bind (_parse_training_metrics full_output) (fun training =>
  let metrics := update metrics training in
  bind (_parse_validation_metrics full_output) (fun validation =>
  let metrics := update metrics validation in
  bind (_parse_prediction_metrics full_output) (fun prediction =>
  let metrics := update metrics prediction in
  bind (_parse_export_metrics full_output) (fun export =>
  let metrics := update metrics export in
  let results_files := _find_results_files w in
  Ok (collect_files w results_files metrics))))).

(** *** The orchestrator *)

Record ExecutionResult : Type := {
  command : string;
  return_code : option Z;
  stdout : string;
  stderr : string;
  metrics : MetricsMap;
  artifacts : list string;
  success : bool
}.

Definition set_return_code (v : option Z) (r : ExecutionResult)
    : ExecutionResult :=
  {| command := command r; return_code := v; stdout := stdout r;
     stderr := stderr r; metrics := metrics r; artifacts := artifacts r;
     success := success r |}.

Definition set_stdout (v : string) (r : ExecutionResult) : ExecutionResult :=
  {| command := command r; return_code := return_code r; stdout := v;
     stderr := stderr r; metrics := metrics r; artifacts := artifacts r;
     success := success r |}.

Definition set_stderr (v : string) (r : ExecutionResult) : ExecutionResult :=
  {| command := command r; return_code := return_code r; stdout := stdout r;
     stderr := v; metrics := metrics r; artifacts := artifacts r;
     success := success r |}.

Definition set_metrics (v : MetricsMap) (r : ExecutionResult)
    : ExecutionResult :=
  {| command := command r; return_code := return_code r; stdout := stdout r;
     stderr := stderr r; metrics := v; artifacts := artifacts r;
     success := success r |}.

Definition set_artifacts (v : list string) (r : ExecutionResult)
    : ExecutionResult :=
  {| command := command r; return_code := return_code r; stdout := stdout r;
     stderr := stderr r; metrics := metrics r; artifacts := v;
     success := success r |}.

Definition set_success (v : bool) (r : ExecutionResult) : ExecutionResult :=
  {| command := command r; return_code := return_code r; stdout := stdout r;
     stderr := stderr r; metrics := metrics r; artifacts := artifacts r;
     success := v |}.

(** The body of the [try]: the record as far as it was filled in, and
    the exception that interrupted it, if any. *)
Definition try_block (w : World) (full_command : list string)
    (result_dict : ExecutionResult) : ExecutionResult * option exn :=
  match subprocess_run w full_command with
  | Raised e => (result_dict, Some e)
  | Completed returncode out err =>
      let result_dict := set_return_code (Some returncode) result_dict in
      let result_dict := set_stdout out result_dict in
      let result_dict := set_stderr err result_dict in
      let result_dict := set_success (returncode =? 0)%Z result_dict in
      match _parse_metrics_from_output w out err with
      | Raise msg => (result_dict, Some (OtherException msg))
      | Ok metrics =>
          let result_dict := set_metrics metrics result_dict in
          let artifacts := _find_artifacts w in
          let result_dict := set_artifacts artifacts result_dict in
          (result_dict, None)
      end
  end.

Definition or_empty (s : option string) : string :=
  match s with
  | Some s => s
  | None => ""
  end.

(** The [except] clauses. *)
Definition except (e : exn) (result_dict : ExecutionResult) : ExecutionResult :=
  match e with
  | TimeoutExpired =>
      let result_dict := set_return_code (Some (-1)%Z) result_dict in
      let result_dict :=
        set_stderr "Command timed out after 1 hour" result_dict in
      set_success false result_dict
  | CalledProcessError returncode out err =>
      let result_dict := set_return_code (Some returncode) result_dict in
      let result_dict := set_stdout (or_empty out) result_dict in
      let result_dict := set_stderr (or_empty err) result_dict in
      set_success false result_dict
  | OtherException msg =>
      let result_dict := set_return_code (Some (-1)%Z) result_dict in
      let result_dict :=
        set_stderr ("Unexpected error: " +:+ msg) result_dict in
      set_success false result_dict
  end.

Definition run_ultralytics (w : World) (args : list string) : ExecutionResult :=
  let full_command := "yolo" :: args in
  let result_dict :=
    {| command := join " " full_command; return_code := None; stdout := "";
       stderr := ""; metrics := ∅; artifacts := []; success := false |} in
  match try_block w full_command result_dict with
  | (result_dict, None) => result_dict
  | (result_dict, Some e) => except e result_dict
  end.

(** *** The argument translator *)

Section Translator.

Variable str_other : pyvalue -> string.

(** The device chosen when the mapping gives none. *)
Definition default_device (w : World) : string :=
  if TORCH_AVAILABLE w && cuda_is_available w then "cuda" else "cpu".

(** The [if 'device' not in args_dict or args_dict['device'] is None]
    statement: the mapping after it. *)
Definition resolve_device (w : World) (args_dict : dict) : dict :=
  match dict_get "device" args_dict with
  | None | Some PNone =>
      dict_set "device" (PStr (default_device w)) args_dict
  | Some _ => args_dict
  end.

(** One turn of the loop over [args_dict.items()]. *)
Definition emit (args : list string) (item : string * pyvalue)
    : list string :=
  let '(key, value) := item in
  match value with
  | PNone => args
  | PBool true => args ++ ["--" +:+ key]
  | PBool false => args
  | _ => args ++ ["--" +:+ key; py_str str_other value]
  end.

(** The tokens returned, and the caller's mapping as the call leaves
    it. *)
Definition parse_yolo_args (w : World) (args_dict : dict)
    : list string * dict :=
  let args := [] in
  let args_dict := resolve_device w args_dict in
  (fold_left emit args_dict args, args_dict).

End Translator.

End Ultra.

(* ------------------------------------------------------------------ *)
(** ** [process_request_args] of [app/main.py] *)
(* ------------------------------------------------------------------ *)

Module Main.
Import Py Env.

Section Request.

Variable str_other : pyvalue -> string.

(** One turn of the loop over [extra_args.items()]. *)
Definition emit_extra (args : list string) (item : string * pyvalue)
    : list string :=
  let '(key, value) := item in
  match value with
  | PNone => args
  | PBool true => args ++ [key]
  | PBool false => args
  | _ => args ++ [key +:+ "=" +:+ py_str str_other value]
  end.

(** The tokens returned (or the [AttributeError] of an [extra_args]
    that is true but has no [items]), and the caller's mapping as the
    call leaves it. *)
Definition process_request_args (w : World) (request_data : dict)
    : result (list string) * dict :=
  let '(extra_args, request_data) :=
    dict_pop "extra_args" (PDict []) request_data in
  let '(_, request_data) := dict_pop "task" PNone request_data in
  let '(args, request_data) :=
    Ultra.parse_yolo_args str_other w request_data in
  if truthy extra_args then
    match extra_args with
    | PDict items => (Ok (fold_left emit_extra items args), request_data)
    | _ =>
        (Raise ("'" +:+ type_name extra_args
                +:+ "' object has no attribute 'items'"),
         request_data)
    end
  else (Ok args, request_data).

End Request.

End Main.

(* ------------------------------------------------------------------ *)
(** ** [execute_ultralytics_command] and the endpoints of [app/main.py] *)
(* ------------------------------------------------------------------ *)

Module Api.
Import Py Env.

(** What a request obtains besides the environment of the run:
    [str(uuid.uuid4())], [datetime.now().isoformat()], and the text of
    the validation error that [OperationResponse] raises when it is
    given [None] for its integer field. *)
Record Runtime : Type := {
  uuid4 : string;
  now_isoformat : string;
  validation_error : string
}.

(** The response model of [app/schemas.py]; [return_code] is an
    integer there. *)
Record OperationResponse : Type := {
  run_id : string;
  command : string;
  return_code : Z;
  stdout : string;
  stderr : string;
  metrics : Ultra.MetricsMap;
  artifacts : list string;
  success : bool;
  timestamp : string
}.

Section Endpoints.

Variable str_other : pyvalue -> string.
Variable w : World.
Variable rt : Runtime.

Definition execute_ultralytics_command (command : string)
    (args : list string) : result OperationResponse :=
  let run_id := uuid4 rt in
  let timestamp := now_isoformat rt in
  let full_args := command :: args in
  let result := Ultra.run_ultralytics w full_args in
  match Ultra.return_code result with
  | Some return_code =>
      Ok {| run_id := run_id;
            command := Ultra.command result;
            return_code := return_code;
            stdout := Ultra.stdout result;
            stderr := Ultra.stderr result;
            metrics := Ultra.metrics result;
            artifacts := Ultra.artifacts result;
            success := Ultra.success result;
            timestamp := timestamp |}
  | None => Raise (validation_error rt)
  end.

(** The body shared by the seven endpoints; [request_data] is
    [request.dict()]. *)
Definition endpoint (command : string) (request_data : dict)
    : result OperationResponse :=
  bind (fst (Main.process_request_args str_other w request_data))
    (fun args => execute_ultralytics_command command args).

Definition validate : dict -> result OperationResponse := endpoint "val".
Definition predict : dict -> result OperationResponse := endpoint "predict".
Definition export : dict -> result OperationResponse := endpoint "export".
Definition track : dict -> result OperationResponse := endpoint "track".
Definition benchmark : dict -> result OperationResponse :=
  endpoint "benchmark".
Definition solution : dict -> result OperationResponse :=
  endpoint "solution".

End Endpoints.

End Api.

(* ------------------------------------------------------------------ *)
(** ** Specification-side notions *)
(* ------------------------------------------------------------------ *)

Module ReSpec.
Import Re.

(** [all_in cls u]: every character of [u] is in the class. *)
Definition all_in (cls : ascii -> bool) (u : text) : Prop :=
  Forall (fun c => cls c = true) u.

(** [Matches p w groups]: the text [w] is an occurrence of the pattern
    [p], with the given captured groups. *)
Inductive Matches : pattern -> text -> list text -> Prop :=
| Matches_nil : Matches [] [] []
| Matches_lit l p w groups :
    Matches p w groups ->
    Matches (Lit l :: p) (l ++ w) groups
| Matches_rep capture cls lo p u w groups :
    all_in cls u ->
    lo <= length u ->
    Matches p w groups ->
    Matches (Rep capture cls lo :: p) (u ++ w)
      (if capture then u :: groups else groups).

(** The text does not go on with a character of the class. *)
Definition stops (cls : ascii -> bool) (s : text) : Prop :=
  match s with
  | [] => True
  | c :: _ => cls c = false
  end.

End ReSpec.

Module UltraSpec.
Import Py Env Ultra.

(** *** The battery of text scans *)

(** A scan: the key it writes, the pattern it looks for, and the
    conversion applied to the last match found. *)
Definition scan : Type := string * Re.pattern * (list text -> result pyvalue).

Definition scan_key (s : scan) : string := fst (fst s).

Definition as_int (group : list text -> text) (m : list text)
    : result pyvalue :=
  bind (py_int (group m)) (fun n => Ok (PInt n)).

Definition as_float (m : list text) : result pyvalue :=
  bind (py_float (Re.group1 m)) (fun f => Ok (PFloat f)).

Definition as_stripped (m : list text) : result pyvalue :=
  Ok (PStr (str_of (strip (Re.group1 m)))).

Definition float_scans (patterns : list (string * Re.pattern)) : list scan :=
  map (fun '(name, p) => (name, p, as_float)) patterns.

Definition training_scans : list scan :=
  [("current_epoch", epoch_pattern, as_int Re.group1);
   ("total_epochs", epoch_pattern, as_int Re.group2)]
  ++ float_scans loss_patterns ++ float_scans map_patterns.

Definition validation_scans : list scan :=
  [("precision", precision_pattern, as_float);
   ("recall", recall_pattern, as_float)].

Definition prediction_scans : list scan :=
  [("inference_time_ms", inference_pattern, as_float);
   ("total_detections", detection_pattern, as_int Re.group1)].

Definition export_scans : list scan :=
  [("export_time_s", export_pattern, as_float);
   ("exported_file", file_pattern, as_stripped)].

(** The scans in the order in which the extractor performs them. *)
Definition text_scans : list scan :=
  training_scans ++ validation_scans ++ prediction_scans ++ export_scans.

(** One scan: no match leaves the mapping as it is; otherwise the last
    match found is converted and stored under the key. *)
Definition run_scan (output : string) (s : scan) (metrics : MetricsMap)
    : result MetricsMap :=
  let '(key, p, convert) := s in
  match Re.last_match (Re.findall p output) with
  | Some m => bind (convert m) (fun v => Ok (<[key := v]> metrics))
  | None => Ok metrics
  end.

Fixpoint run_scans (scans : list scan) (output : string)
    (metrics : MetricsMap) : result MetricsMap :=
  match scans with
  | [] => Ok metrics
  | s :: rest => bind (run_scan output s metrics) (run_scans rest output)
  end.

(** What the scan of a pattern contributes for a text. *)
Definition scanned (output : string) (p : Re.pattern)
    (convert : list text -> result pyvalue) : option (result pyvalue) :=
  match Re.last_match (Re.findall p output) with
  | Some m => Some (convert m)
  | None => None
  end.

(** Every last match of a scan can be converted: the numbers captured
    for the float entries are well-formed literals, and those captured
    for the integer entries have no more digits than [int] accepts. *)
Definition captures_convert (output : string) : Prop :=
  forall key p convert m,
    In (key, p, convert) text_scans ->
    Re.last_match (Re.findall p output) = Some m ->
    is_ok (convert m) = true.

(** *** Result files *)

(** Keys written for result files start with [file_]. *)
Definition is_file_key (k : string) : bool := startswith k "file_".

(** Opening and decoding a result file, by its extension. *)
Definition load (w : World) (file_path : string) : result pyvalue :=
  bind (open_file w file_path)
    (fun f =>
       if endswith file_path ".json" then json_load w f
       else yaml_safe_load w f).

(** The entry that a result file contributes. *)
Definition file_entry (w : World) (file_path : string) : string * pyvalue :=
  match load w file_path with
  | Ok data => (file_key file_path, data)
  | Raise msg => (file_error_key file_path, PStr msg)
  end.

(** Two environments with the same result files, decoded alike. *)
Definition same_result_files (w1 w2 : World) : Prop :=
  _find_results_files w1 = _find_results_files w2
  /\ forall file_path, In file_path (_find_results_files w1) ->
       _parse_results_file w1 file_path = _parse_results_file w2 file_path.

(** *** Process outcomes *)

(** [subprocess] raises [CalledProcessError] only for a non-zero exit
    status. *)
Definition outcome_well_formed (o : run_outcome) : bool :=
  match o with
  | Raised (CalledProcessError returncode _ _) => negb (returncode =? 0)%Z
  | _ => true
  end.

(** [success == (return_code == 0)] on a returned record. *)
Definition return_code_is_zero (r : ExecutionResult) : bool :=
  match return_code r with
  | Some 0%Z => true
  | _ => false
  end.

End UltraSpec.

Module TranslatorSpec.
Import Py Env.

Section Tokens.

Variable str_other : pyvalue -> string.

(** The tokens of one primary parameter: nothing for [None] and for
    [False], the bare flag for [True], the flag and the value
    otherwise. *)
Definition entry_tokens (entry : string * pyvalue) : list string :=
  match snd entry with
  | PNone => []
  | PBool true => ["--" +:+ fst entry]
  | PBool false => []
  | v => ["--" +:+ fst entry; py_str str_other v]
  end.

(** The tokens of one extra parameter, in the equals form. *)
Definition extra_tokens (entry : string * pyvalue) : list string :=
  match snd entry with
  | PNone => []
  | PBool true => [fst entry]
  | PBool false => []
  | v => [fst entry +:+ "=" +:+ py_str str_other v]
  end.

End Tokens.

(** The device entry is missing from the mapping, or is [None]. *)
Definition device_missing (args_dict : dict) : Prop :=
  dict_get "device" args_dict = None
  \/ dict_get "device" args_dict = Some PNone.

(** The primary parameters of a request: the mapping without
    [extra_args] and [task]. *)
Definition primary (request_data : dict) : dict :=
  snd (dict_pop "task" PNone
         (snd (dict_pop "extra_args" (PDict []) request_data))).

(** The entries of a mapping other than the device. *)
Definition other_entries (args_dict : dict) : dict :=
  List.filter (fun entry => negb (String.eqb "device" (fst entry))) args_dict.

End TranslatorSpec.

Module ExtraSpec.
Import Py Env Ultra UltraSpec.

(** Ascending order of strings. *)
Definition str_le (a b : string) : Prop := String.leb a b = true.

(** The paths that the artifact scan comes across, in the order of the
    walk. *)
Definition walked_artifacts (w : World) : list string :=
  flat_map
    (fun output_dir =>
       if path_exists w output_dir then
         flat_map
           (fun '(root, files) =>
              map (fun file => os_path_relpath w (os_path_join root file))
                files)
           (os_walk w output_dir)
       else [])
    output_dirs.

(** A text without the character. *)
Definition lacks (c : ascii) (s : string) : Prop := ~ In c (chars s).

(** A decimal literal without sign or exponent: digits alone, or
    digits around one dot, with a digit on one side of it at least. *)
Definition decimal_literal (t : text) : Prop :=
  (t <> [] /\ ReSpec.all_in Re.is_digit t)
  \/ (exists whole fraction,
        t = whole ++ dot :: fraction
        /\ ReSpec.all_in Re.is_digit whole
        /\ ReSpec.all_in Re.is_digit fraction
        /\ whole ++ fraction <> []).

(** A float that is not negative, as the conversion of a decimal
    literal gives it: a decimal with a mantissa that is not negative
    and no positive exponent, or positive infinity. *)
Definition nonnegative (f : pyfloat) : Prop :=
  match f with
  | Finite mantissa exponent => (0 <= mantissa)%Z /\ (exponent <= 0)%Z
  | Infinity negative => negative = false
  | NaN => False
  end.

(** The keys of the text scans that hold integers. *)
Definition integer_keys : list string :=
  ["current_epoch"; "total_epochs"; "total_detections"].

(** What the entry under a key of the text scans is: a natural number
    under the integer keys, a string under [exported_file], a float
    that is not negative under every other key. *)
Definition entry_shape (key : string) (v : pyvalue) : Prop :=
  if existsb (String.eqb key) integer_keys then
    exists n, v = PInt n /\ (0 <= n)%Z
  else if String.eqb key "exported_file" then exists s, v = PStr s
  else exists f, v = PFloat f /\ nonnegative f.

(** The classes of the captured groups of a pattern, in order. *)
Fixpoint capture_classes (p : Re.pattern) : list (ascii -> bool) :=
  match p with
  | [] => []
  | Re.Lit _ :: p' => capture_classes p'
  | Re.Rep true cls _ :: p' => cls :: capture_classes p'
  | Re.Rep false _ _ :: p' => capture_classes p'
  end.

(** The extra parameters of a request: the value under [extra_args],
    an empty mapping when the key is missing. *)
Definition extra_args_of (request_data : dict) : pyvalue :=
  match dict_get "extra_args" request_data with
  | Some v => v
  | None => PDict []
  end.

End ExtraSpec.

(* ------------------------------------------------------------------ *)
(** ** Sample environments and inputs *)
(* ------------------------------------------------------------------ *)

Module Samples.
Import Py Env Ultra.

(** No accelerator, no output directory, a process that exits with
    status 0 and prints nothing. *)
Definition quiet_world : World :=
  {| TORCH_AVAILABLE := false;
     cuda_is_available := false;
     subprocess_run := fun _ => Completed 0 "" "";
     path_exists := fun _ => false;
     os_walk := fun _ => [];
     os_path_relpath := fun p => p;
     open_file := fun _ => Raise "[Errno 2] No such file or directory";
     json_load := fun _ => Raise "Expecting value: line 1 column 1 (char 0)";
     yaml_safe_load := fun _ => Ok PNone |}.

(** A training run has left [runs/train/exp] behind, with a well-formed
    JSON file, a malformed YAML file and a weights file. *)
Definition train_walk : list (string * list string) :=
  [("runs/train", []);
   ("runs/train/exp", ["results.json"; "args.yaml"; "best.pt"])].

Definition trained_world : World :=
  {| TORCH_AVAILABLE := true;
     cuda_is_available := true;
     subprocess_run := fun _ => Completed 0 "" "";
     path_exists :=
       fun p => String.eqb p "runs" || String.eqb p "runs/train";
     os_walk :=
       fun top =>
         if String.eqb top "runs" then ("runs", []) :: train_walk
         else if String.eqb top "runs/train" then train_walk
         else [];
     os_path_relpath := fun p => p;
     open_file :=
       fun p =>
         if String.eqb p "runs/train/exp/results.json" then Ok "[1, 2]"
         else if String.eqb p "runs/train/exp/args.yaml" then Ok "a: b: c"
         else Raise "[Errno 2] No such file or directory";
     json_load :=
       fun content =>
         if String.eqb content "[1, 2]" then Ok (PList [PInt 1; PInt 2])
         else Raise "Expecting value: line 1 column 1 (char 0)";
     yaml_safe_load :=
       fun _ => Raise "mapping values are not allowed here" |}.

(** A validation run has left two JSON files behind, the stem of the
    first being the stem of the second followed by [_error]:
    [a_error.json] is well formed, [a.json] is cut short. *)
Definition val_walk : list (string * list string) :=
  [("runs/val", ["a_error.json"; "a.json"])].

Definition clash_world : World :=
  {| TORCH_AVAILABLE := false;
     cuda_is_available := false;
     subprocess_run := fun _ => Completed 0 "" "";
     path_exists :=
       fun p => String.eqb p "runs" || String.eqb p "runs/val";
     os_walk :=
       fun top =>
         if String.eqb top "runs" then ("runs", []) :: val_walk
         else if String.eqb top "runs/val" then val_walk
         else [];
     os_path_relpath := fun p => p;
     open_file :=
       fun p =>
         if String.eqb p "runs/val/a_error.json" then Ok "[1, 2]"
         else if String.eqb p "runs/val/a.json" then Ok "[1, "
         else Raise "[Errno 2] No such file or directory";
     json_load :=
       fun content =>
         if String.eqb content "[1, 2]" then Ok (PList [PInt 1; PInt 2])
         else Raise "Expecting value: line 1 column 5 (char 4)";
     yaml_safe_load := fun _ => Ok PNone |}.

(** The same environment with another outcome of the process. *)
Definition with_outcome (o : run_outcome) (w : World) : World :=
  {| TORCH_AVAILABLE := TORCH_AVAILABLE w;
     cuda_is_available := cuda_is_available w;
     subprocess_run := fun _ => o;
     path_exists := path_exists w;
     os_walk := os_walk w;
     os_path_relpath := os_path_relpath w;
     open_file := open_file w;
     json_load := json_load w;
     yaml_safe_load := yaml_safe_load w |}.

(** The process ran into the time limit. *)
Definition timed_out_world : World :=
  with_outcome (Raised TimeoutExpired) trained_world.

(** The process was killed by signal 9. *)
Definition killed_world : World :=
  with_outcome (Completed (-9) "" "Killed") quiet_world.

(** A log with two epoch lines and two mAP lines. *)
Definition training_log : string :=
  "Epoch 1/10" +:+ newline +:+ "mAP50: 0.5" +:+ newline
  +:+ "Epoch 5/10" +:+ newline +:+ "mAP50: 0.87".

(** The same log, ending with a full stop. *)
Definition training_log_stop : string := training_log +:+ ".".

(** [str()] for the samples, which hold no float, list or dict. *)
Definition str_unused (v : pyvalue) : string := "".

Definition train_request : dict :=
  [("task", PStr "train"); ("model", PStr "yolov8n.pt"); ("epochs", PInt 1);
   ("device", PNone); ("verbose", PBool false); ("amp", PBool true);
   ("name", PNone);
   ("extra_args",
    PDict [("patience", PInt 1); ("plots", PBool false);
           ("simplify", PBool true); ("cfg", PNone)])].

End Samples.

(* ------------------------------------------------------------------ *)
(** ** Facts about the matcher *)
(* ------------------------------------------------------------------ *)

Module ReFacts.
Import Re ReSpec.

Lemma strip_prefix_app (l s : text) : strip_prefix l (l ++ s) = Some s.
Proof.
  induction l as [|a l IH]; simpl; [reflexivity|].
  now rewrite Ascii.eqb_refl.
Qed.

Lemma strip_prefix_Some (l s s' : text) :
  strip_prefix l s = Some s' -> s = l ++ s'.
Proof.
  revert s; induction l as [|a l IH]; intros s H; simpl in H.
  - now inversion H.
  - destruct s as [|c s]; [discriminate|].
    destruct (Ascii.eqb a c) eqn:E; [|discriminate].
    apply Ascii.eqb_eq in E; subst c. simpl. f_equal. now apply IH.
Qed.

(** What a successful repetition took. *)
Lemma rep_sound {R : Type} cls lo (k : text -> text -> option R) taken s r :
  rep cls lo k taken s = Some r ->
  exists u s', s = u ++ s' /\ all_in cls u /\ lo <= length (taken ++ u)
               /\ k (taken ++ u) s' = Some r.
Proof.
  revert taken; induction s as [|c s IH]; intros taken H; simpl in H.
  - destruct (lo <=? length taken)%nat eqn:E; [|discriminate].
    apply Nat.leb_le in E.
    exists [], []. rewrite !app_nil_r. repeat split; auto. constructor.
  - assert (Hstop : (if (lo <=? length taken)%nat then k taken (c :: s)
                     else None) = Some r ->
                    exists u s', c :: s = u ++ s' /\ all_in cls u
                      /\ lo <= length (taken ++ u)
                      /\ k (taken ++ u) s' = Some r).
    { intros H'. destruct (lo <=? length taken)%nat eqn:E; [|discriminate].
      apply Nat.leb_le in E.
      exists [], (c :: s). rewrite !app_nil_r. repeat split; auto.
      constructor. }
    destruct (cls c) eqn:Ec; [|auto].
    destruct (rep cls lo k (taken ++ [c]) s) as [r'|] eqn:Er; [|auto].
    inversion H; subst r'.
    destruct (IH _ Er) as (u & s' & -> & Hu & Hlen & Hk).
    exists (c :: u), s'. rewrite <- app_assoc in Hlen, Hk. simpl in Hlen, Hk.
    repeat split; auto. constructor; auto.
Qed.

(** A match found is an occurrence of the pattern at the head of the
    text. *)
Lemma match_here_sound p s groups remaining :
  match_here p s = Some (groups, remaining) ->
  exists w, s = w ++ remaining /\ Matches p w groups.
Proof.
  revert s groups remaining.
  induction p as [|[l|capture cls lo] p IH]; intros s groups remaining H;
    simpl in H.
  - inversion H; subst. exists []. split; [reflexivity|constructor].
  - destruct (strip_prefix l s) as [s'|] eqn:E; [|discriminate].
    apply strip_prefix_Some in E; subst s.
    destruct (IH _ _ _ H) as (w & -> & Hw).
    exists (l ++ w). rewrite app_assoc. split; [reflexivity|].
    now constructor.
  - apply rep_sound in H. destruct H as (u & s' & -> & Hu & Hlen & Hk).
    simpl in Hlen, Hk.
    destruct (match_here p s') as [[gs rest]|] eqn:E; [|discriminate].
    inversion Hk; subst.
    destruct (IH _ _ _ E) as (w & -> & Hw).
    exists (u ++ w). rewrite app_assoc. split; [reflexivity|].
    now constructor.
Qed.

(** When the class run ends where the continuation succeeds, the greedy
    repetition takes the whole run. *)
Lemma rep_greedy {R : Type} cls lo (k : text -> text -> option R)
    taken u s r :
  all_in cls u -> stops cls s -> lo <= length (taken ++ u) ->
  k (taken ++ u) s = Some r ->
  rep cls lo k taken (u ++ s) = Some r.
Proof.
  intros Hu Hs. revert taken.
  induction Hu as [|c u Hc Hu IH]; intros taken Hlen Hk.
  - rewrite app_nil_r in Hlen, Hk. simpl.
    apply Nat.leb_le in Hlen.
    destruct s as [|c s]; simpl in *.
    + now rewrite Hlen.
    + now rewrite Hs, Hlen.
  - simpl. rewrite Hc.
    rewrite (IH (taken ++ [c])); [reflexivity| |].
    + now rewrite <- app_assoc.
    + now rewrite <- app_assoc.
Qed.

(** Passing over the rest of a match. *)
Lemma findall_from_skip p (u s : text) :
  findall_from p (length u) (u ++ s) = findall_from p 0 s.
Proof.
  induction u as [|c u IH]; simpl; [|exact IH].
  destruct s; reflexivity.
Qed.

Lemma findall_from_cons_0 p a s :
  findall_from p 0 (a :: s)
  = match match_here p (a :: s) with
    | Some (groups, remaining) =>
        groups :: findall_from p (length (a :: s) - length remaining - 1) s
    | None => findall_from p 0 s
    end.
Proof. reflexivity. Qed.

Lemma findall_from_cons_S p n a s :
  findall_from p (S n) (a :: s) = findall_from p n s.
Proof. reflexivity. Qed.

(** If no occurrence of the pattern has the character [c] after its
    first position, no match found before an occurrence of [c] reaches
    over it: the scan arrives at that [c] ready to match. *)
Lemma findall_from_no_cross p (c : ascii) :
  (forall a w groups, Matches p (a :: w) groups -> ~ In c w) ->
  forall pre rest skip,
    skip <= length pre ->
    exists found,
      findall_from p skip (pre ++ c :: rest)
      = found ++ findall_from p 0 (c :: rest).
Proof.
  intros Hc pre rest.
  induction pre as [|a pre IH]; intros skip Hskip.
  - simpl in Hskip. assert (skip = 0) by lia; subst.
    exists []. reflexivity.
  - simpl in Hskip. change ((a :: pre) ++ c :: rest)
      with (a :: (pre ++ c :: rest)).
    destruct skip as [|n].
    + destruct (match_here p (a :: pre ++ c :: rest))
        as [[groups remaining]|] eqn:E.
      * destruct (match_here_sound _ _ _ _ E) as (w & Hw & HM).
        assert (Hlen : length (a :: pre ++ c :: rest) - length remaining - 1
                       <= length pre).
        { destruct w as [|a' w].
          - simpl in Hw. rewrite <- Hw. simpl. lia.
          - simpl in Hw. inversion Hw; subst a'.
            assert (Hnot := Hc _ _ _ HM).
            destruct (Nat.le_gt_cases (length w) (length pre)) as [Hle|Hgt].
            + rewrite Hw. simpl. rewrite length_app. lia.
            + exfalso. apply Hnot.
              destruct (app_eq_app _ _ _ _ H1) as [l [[Hpre _]|[Hw' Hrest]]].
              * subst pre. rewrite length_app in Hgt. lia.
              * subst w. destruct l as [|c' l].
                -- rewrite app_nil_r in Hgt. lia.
                -- simpl in Hrest. inversion Hrest; subst c'.
                   apply in_or_app. right. now left. }
        destruct (IH _ Hlen) as (found & Hfound).
        exists (groups :: found).
        rewrite findall_from_cons_0, E, Hfound. reflexivity.
      * destruct (IH 0 ltac:(lia)) as (found & Hfound).
        exists found. rewrite findall_from_cons_0, E. exact Hfound.
    + destruct (IH n ltac:(lia)) as (found & Hfound).
      exists found. rewrite findall_from_cons_S. exact Hfound.
Qed.

End ReFacts.

(* ------------------------------------------------------------------ *)
(** ** The extractor as a battery of scans *)
(* ------------------------------------------------------------------ *)

Module ScanFacts.
Import Py Env Ultra UltraSpec.

Lemma bind_Ok_inv {A B : Type} (r : result A) (f : A -> result B) b :
  bind r f = Ok b -> exists a, r = Ok a /\ f a = Ok b.
Proof. destruct r as [a|msg]; simpl; [eauto|discriminate]. Qed.

Lemma py_int_value t z : py_int t = Ok z -> z = int_value t.
Proof.
  unfold py_int. destruct t as [|c t]; [discriminate|].
  destruct (length (c :: t) <=? int_max_str_digits)%nat; [|discriminate].
  intros H. now inversion H.
Qed.

Lemma as_int_value group m v :
  as_int group m = Ok v -> v = PInt (int_value (group m)).
Proof.
  unfold as_int. destruct (py_int (group m)) as [z|] eqn:E; [|discriminate].
  intros H. inversion H. f_equal. now apply py_int_value.
Qed.

Lemma scan_float_run_scan name p output metrics :
  scan_float name p output metrics
  = run_scan output (name, p, as_float) metrics.
Proof.
  unfold scan_float, run_scan, as_float.
  destruct (Re.last_match (Re.findall p output)) as [m|]; [|reflexivity].
  now destruct (py_float (Re.group1 m)).
Qed.

Lemma scan_floats_run_scans patterns output metrics :
  scan_floats patterns output metrics
  = run_scans (float_scans patterns) output metrics.
Proof.
  revert metrics; induction patterns as [|[name p] rest IH]; intros metrics;
    [reflexivity|].
  cbn [scan_floats float_scans map run_scans].
  rewrite scan_float_run_scan.
  destruct (run_scan output (name, p, as_float) metrics); simpl; auto.
Qed.

Lemma run_scans_app s1 s2 output metrics :
  run_scans (s1 ++ s2) output metrics
  = bind (run_scans s1 output metrics) (run_scans s2 output).
Proof.
  revert metrics; induction s1 as [|s s1 IH]; intros metrics; [reflexivity|].
  simpl. destruct (run_scan output s metrics); simpl; auto.
Qed.

(** Scanning into a mapping is scanning into the empty mapping and
    merging, the scanned entries winning. *)
Lemma run_scan_union output s (metrics : MetricsMap) :
  run_scan output s metrics
  = bind (run_scan output s ∅) (fun found => Ok (found ∪ metrics)).
Proof.
  destruct s as [[key p] convert]. unfold run_scan.
  destruct (Re.last_match (Re.findall p output)) as [m|]; simpl.
  - destruct (convert m) as [v|msg]; simpl; [|reflexivity].
    f_equal. rewrite insert_empty. now rewrite <- insert_union_singleton_l.
  - now rewrite (left_id_L ∅ (∪)).
Qed.

Lemma run_scans_union scans output (metrics : MetricsMap) :
  run_scans scans output metrics
  = bind (run_scans scans output ∅) (fun found => Ok (found ∪ metrics)).
Proof.
  revert metrics; induction scans as [|s rest IH]; intros metrics; simpl.
  - now rewrite (left_id_L ∅ (∪)).
  - rewrite run_scan_union.
    destruct (run_scan output s ∅) as [found|msg]; simpl; [|reflexivity].
    rewrite IH. rewrite (IH found).
    destruct (run_scans rest output ∅) as [found'|msg]; simpl; [|reflexivity].
    now rewrite (assoc_L (∪)).
Qed.

Lemma loss_and_map_scans output (metrics : MetricsMap) :
  bind (scan_floats loss_patterns output metrics)
    (fun metrics => scan_floats map_patterns output metrics)
  = run_scans (float_scans loss_patterns ++ float_scans map_patterns)
      output metrics.
Proof.
  rewrite run_scans_app, scan_floats_run_scans.
  destruct (run_scans (float_scans loss_patterns) output metrics);
    cbn [bind]; [apply scan_floats_run_scans|reflexivity].
Qed.

Lemma training_as_scans output :
  _parse_training_metrics output = run_scans training_scans output ∅.
Proof.
  unfold _parse_training_metrics, training_scans.
  cbn [app run_scans run_scan]. unfold as_int.
  destruct (Re.last_match (Re.findall epoch_pattern output)) as [m|];
    cbn [bind]; [|apply loss_and_map_scans].
  destruct (py_int (Re.group1 m)); cbn [bind]; [|reflexivity].
  destruct (py_int (Re.group2 m)); cbn [bind]; [|reflexivity].
  apply loss_and_map_scans.
Qed.

Lemma validation_as_scans output :
  _parse_validation_metrics output = run_scans validation_scans output ∅.
Proof.
  unfold _parse_validation_metrics, validation_scans, as_float.
  cbn [run_scans run_scan].
  destruct (Re.last_match (Re.findall precision_pattern output)) as [m|];
    simpl.
  - destruct (py_float (Re.group1 m)); simpl; [|reflexivity].
    destruct (Re.last_match (Re.findall recall_pattern output)) as [m'|];
      simpl; [|reflexivity].
    now destruct (py_float (Re.group1 m')).
  - destruct (Re.last_match (Re.findall recall_pattern output)) as [m'|];
      simpl; [|reflexivity].
    now destruct (py_float (Re.group1 m')).
Qed.

Lemma prediction_as_scans output :
  _parse_prediction_metrics output = run_scans prediction_scans output ∅.
Proof.
  unfold _parse_prediction_metrics, prediction_scans.
  cbn [run_scans]. rewrite scan_float_run_scan.
  destruct (run_scan output _ ∅) as [m|]; simpl; [|reflexivity].
  unfold scan_int, run_scan, as_int.
  destruct (Re.last_match (Re.findall detection_pattern output)) as [d|];
    [|reflexivity].
  now destruct (py_int (Re.group1 d)).
Qed.

Lemma export_as_scans output :
  _parse_export_metrics output = run_scans export_scans output ∅.
Proof.
  unfold _parse_export_metrics, export_scans.
  cbn [run_scans]. rewrite scan_float_run_scan.
  destruct (run_scan output _ ∅) as [m|]; simpl; [|reflexivity].
  unfold as_stripped.
  now destruct (Re.last_match (Re.findall file_pattern output)).
Qed.

(** The extractor is the battery of scans over the combined text,
    followed by the collection of the result files. *)
Lemma extractor_as_scans w out err :
  _parse_metrics_from_output w out err
  = bind (run_scans text_scans (out +:+ newline +:+ err) ∅)
      (fun found => Ok (collect_files w (_find_results_files w) found)).
Proof.
  unfold _parse_metrics_from_output, text_scans.
  rewrite training_as_scans, validation_as_scans, prediction_as_scans,
    export_as_scans.
  set (output := out +:+ newline +:+ err).
  rewrite run_scans_app.
  destruct (run_scans training_scans output ∅) as [t|]; cbn [bind];
    [|reflexivity].
  rewrite run_scans_app, (run_scans_union validation_scans output t).
  destruct (run_scans validation_scans output ∅) as [v|]; cbn [bind];
    [|reflexivity].
  rewrite run_scans_app, (run_scans_union prediction_scans output (v ∪ t)).
  destruct (run_scans prediction_scans output ∅) as [p|]; cbn [bind];
    [|reflexivity].
  rewrite (run_scans_union export_scans output (p ∪ (v ∪ t))).
  destruct (run_scans export_scans output ∅) as [e|]; cbn [bind];
    [|reflexivity].
  unfold update. now rewrite (right_id_L ∅ (∪)).
Qed.

(** With distinct keys, each scan decides the entry under its key, and
    no other entry changes. *)
Lemma run_scans_lookup scans output (m0 m : MetricsMap) :
  run_scans scans output m0 = Ok m ->
  NoDup (map scan_key scans) ->
  (forall k, ~ In k (map scan_key scans) -> m !! k = m0 !! k)
  /\ (forall key p convert, In (key, p, convert) scans ->
        match scanned output p convert with
        | Some r => exists v, r = Ok v /\ m !! key = Some v
        | None => m !! key = m0 !! key
        end).
Proof.
  revert m0; induction scans as [|[[k0 p0] c0] rest IH]; intros m0 Hrun Hnd.
  - simpl in Hrun. inversion Hrun; subst. split; [reflexivity|].
    intros ? ? ? [].
  - cbn [run_scans] in Hrun.
    apply bind_Ok_inv in Hrun. destruct Hrun as (m1 & Hs & Hrest).
    cbn [map scan_key fst] in Hnd. apply NoDup_cons in Hnd.
    destruct Hnd as [Hk0 Hnd].
    destruct (IH _ Hrest Hnd) as [IHframe IHkey].
    assert (Hm1 : forall k, k <> k0 -> m1 !! k = m0 !! k).
    { intros k Hk. unfold run_scan in Hs.
      destruct (Re.last_match (Re.findall p0 output)) as [mt|].
      - apply bind_Ok_inv in Hs. destruct Hs as (v & _ & Hv).
        inversion Hv; subst. now rewrite lookup_insert_ne.
      - now inversion Hs. }
    split.
    + intros k Hk. cbn [map scan_key fst] in Hk.
      rewrite IHframe by (intros ?; apply Hk; now right).
      apply Hm1. intros ->. apply Hk. now left.
    + intros key p convert [Heq|Hin'].
      * inversion Heq; subst key p convert.
        rewrite IHframe by (intros ?; apply Hk0; now apply list_elem_of_In).
        unfold scanned. unfold run_scan in Hs.
        destruct (Re.last_match (Re.findall p0 output)) as [mt|].
        -- apply bind_Ok_inv in Hs. destruct Hs as (v & Hc & Hv).
           inversion Hv; subst. exists v. split; [exact Hc|].
           apply lookup_insert_eq.
        -- now inversion Hs.
      * specialize (IHkey _ _ _ Hin').
        destruct (scanned output p convert); [exact IHkey|].
        rewrite IHkey. apply Hm1. intros ->. apply Hk0.
        apply list_elem_of_In.
        change k0 with (scan_key (k0, p, convert)). now apply in_map.
Qed.

Lemma text_scans_keys_distinct : NoDup (map scan_key text_scans).
Proof. apply (bool_decide_unpack _). vm_compute. exact I. Qed.

Lemma text_scans_keys_not_file :
  forall k, In k (map scan_key text_scans) -> is_file_key k = false.
Proof.
  intros k Hk. vm_compute in Hk.
  repeat (destruct Hk as [<-|Hk]; [reflexivity|]). destruct Hk.
Qed.

(** *** Result files leave the text entries alone *)

Lemma file_key_is_file_key file_path : is_file_key (file_key file_path) = true.
Proof. reflexivity. Qed.

Lemma file_error_key_is_file_key file_path :
  is_file_key (file_error_key file_path) = true.
Proof. reflexivity. Qed.

(** A result file contributes exactly its entry, for a path with one of
    the three extensions. *)
Lemma parse_results_file_entry w file_path :
  is_results_file file_path = true ->
  _parse_results_file w file_path
  = {[ fst (file_entry w file_path) := snd (file_entry w file_path) ]}.
Proof.
  intros Hext. unfold _parse_results_file, file_entry, load.
  destruct (open_file w file_path) as [f|msg]; cbn [bind];
    [|now rewrite insert_empty].
  destruct (endswith file_path ".json") eqn:Ej.
  - destruct (json_load w f); cbn [bind fst snd]; now rewrite insert_empty.
  - unfold is_results_file in Hext. rewrite Ej, orb_false_r in Hext.
    rewrite Hext.
    destruct (yaml_safe_load w f); cbn [bind fst snd]; now rewrite insert_empty.
Qed.

Lemma parse_results_file_text_key w file_path k :
  is_file_key k = false -> _parse_results_file w file_path !! k = None.
Proof.
  intros Hk.
  assert (Hkey : k <> file_key file_path)
    by (intros ->; now rewrite file_key_is_file_key in Hk).
  assert (Herr : k <> file_error_key file_path)
    by (intros ->; now rewrite file_error_key_is_file_key in Hk).
  unfold _parse_results_file.
  destruct (open_file w file_path) as [f|msg]; cbn [bind];
    [|now rewrite lookup_insert_ne].
  destruct (endswith file_path ".json").
  - destruct (json_load w f); cbn [bind]; now rewrite lookup_insert_ne.
  - destruct (endswith file_path ".yaml" || endswith file_path ".yml").
    + destruct (yaml_safe_load w f); cbn [bind]; now rewrite lookup_insert_ne.
    + cbn [bind]. apply lookup_empty.
Qed.

Lemma collect_files_text_key w files (m : MetricsMap) k :
  is_file_key k = false -> collect_files w files m !! k = m !! k.
Proof.
  intros Hk. unfold collect_files.
  revert m; induction files as [|f files IH]; intros m; [reflexivity|].
  simpl. rewrite IH. unfold update.
  rewrite lookup_union_r; [reflexivity|].
  now apply parse_results_file_text_key.
Qed.

(** The entries of the extractor's result under the keys of the scans. *)
Lemma extractor_text_entries w out err (M : MetricsMap) :
  _parse_metrics_from_output w out err = Ok M ->
  exists found,
    run_scans text_scans (out +:+ newline +:+ err) ∅ = Ok found
    /\ (forall k, is_file_key k = false -> M !! k = found !! k)
    /\ (forall key p convert, In (key, p, convert) text_scans ->
          match scanned (out +:+ newline +:+ err) p convert with
          | Some r => exists v, r = Ok v /\ M !! key = Some v
          | None => M !! key = None
          end).
Proof.
  rewrite extractor_as_scans. intros H.
  apply bind_Ok_inv in H. destruct H as (found & Hfound & HM).
  inversion HM; subst M; clear HM.
  exists found. split; [exact Hfound|].
  split; [intros k Hk; now apply collect_files_text_key|].
  intros key p convert Hin.
  destruct (run_scans_lookup _ _ _ _ Hfound text_scans_keys_distinct)
    as [_ Hkey].
  specialize (Hkey _ _ _ Hin).
  assert (Hk : is_file_key key = false).
  { apply text_scans_keys_not_file.
    change key with (scan_key (key, p, convert)). now apply in_map. }
  rewrite collect_files_text_key by exact Hk.
  destruct (scanned _ p convert); [exact Hkey|].
  rewrite Hkey. apply lookup_empty.
Qed.

End ScanFacts.

(* ------------------------------------------------------------------ *)
(** ** Occurrences of the epoch pattern *)
(* ------------------------------------------------------------------ *)

Module EpochFacts.
Import Re ReSpec ReFacts Py Ultra.

Lemma is_digit_not_space c : is_digit c = true -> is_space c = false.
Proof.
  unfold is_digit, is_space. intros H.
  apply andb_prop in H. destruct H as [H1 H2].
  apply N.leb_le in H1, H2.
  replace (code c <=? 13)%N with false by (symmetry; apply N.leb_gt; lia).
  replace (code c <=? 32)%N with false by (symmetry; apply N.leb_gt; lia).
  replace (code c =? 133)%N with false by (symmetry; apply N.eqb_neq; lia).
  replace (code c =? 160)%N with false by (symmetry; apply N.eqb_neq; lia).
  now rewrite !andb_false_r.
Qed.

Lemma nonempty_length (u : text) : u <> [] -> 1 <= length u.
Proof. destruct u; [congruence|simpl; lia]. Qed.

(** The shape of an occurrence. *)
Lemma epoch_occurrence w groups :
  Matches epoch_pattern w groups ->
  exists ws n m,
    w = chars "Epoch" ++ ws ++ n ++ chars "/" ++ m
    /\ all_in is_space ws /\ all_in is_digit n /\ all_in is_digit m
    /\ groups = [n; m].
Proof.
  unfold epoch_pattern. intros H.
  inversion H as [|l1 p1 w1 g1 H1|]; subst; clear H.
  inversion H1 as [| |c2 cls2 lo2 p2 ws w2 g2 Hws _ H2]; subst; clear H1.
  inversion H2 as [| |c3 cls3 lo3 p3 n w3 g3 Hn _ H3]; subst; clear H2.
  inversion H3 as [|l4 p4 w4 g4 H4|]; subst; clear H3.
  inversion H4 as [| |c5 cls5 lo5 p5 m w5 g5 Hm _ H5]; subst; clear H4.
  inversion H5; subst; clear H5.
  exists ws, n, m. rewrite app_nil_r. auto.
Qed.

(** An occurrence has no [E] after its first character. *)
Lemma epoch_occurrence_one_E a w groups :
  Matches epoch_pattern (a :: w) groups -> ~ In "E"%char w.
Proof.
  intros H. apply epoch_occurrence in H.
  destruct H as (ws & n & m & Hw & Hws & Hn & Hm & _).
  change (chars "Epoch") with ("E"%char :: chars "poch") in Hw.
  inversion Hw; subst; clear Hw.
  intros Hin.
  assert (Hcls : forall cls u, all_in cls u -> cls "E"%char = false ->
                               ~ In "E"%char u).
  { intros cls u Hu Hf Hi. unfold all_in in Hu.
    rewrite Forall_forall in Hu. apply list_elem_of_In in Hi.
    apply Hu in Hi. congruence. }
  destruct Hin as [?|[?|[?|[?|Hin]]]]; try discriminate.
  apply in_app_or in Hin. destruct Hin as [Hin|Hin];
    [now apply (Hcls _ _ Hws)|].
  apply in_app_or in Hin. destruct Hin as [Hin|Hin];
    [now apply (Hcls _ _ Hn)|].
  destruct Hin as [?|Hin]; [discriminate|].
  now apply (Hcls _ _ Hm).
Qed.

(** The match at an occurrence that is followed by no further digit. *)
Lemma match_here_epoch ws n m post :
  ws <> [] -> all_in is_space ws ->
  n <> [] -> all_in is_digit n ->
  m <> [] -> all_in is_digit m ->
  stops is_digit post ->
  match_here epoch_pattern
    (chars "Epoch" ++ ws ++ n ++ chars "/" ++ m ++ post)
  = Some ([n; m], post).
Proof.
  intros Hws0 Hws Hn0 Hn Hm0 Hm Hpost.
  assert (E3 : match_here [Rep true is_digit 1] (m ++ post)
               = Some ([m], post)).
  { cbn [match_here]. apply rep_greedy; auto.
    simpl. now apply nonempty_length. }
  assert (E2 : match_here [Lit (chars "/"); Rep true is_digit 1]
                 (chars "/" ++ m ++ post) = Some ([m], post)).
  { cbn [match_here]. now rewrite strip_prefix_app. }
  assert (E1 : match_here
                 [Rep true is_digit 1; Lit (chars "/"); Rep true is_digit 1]
                 (n ++ chars "/" ++ m ++ post) = Some ([n; m], post)).
  { cbn [match_here]. apply rep_greedy; auto.
    - reflexivity.
    - simpl. now apply nonempty_length.
    - cbn [app]. cbn [match_here] in E2. now rewrite E2. }
  unfold epoch_pattern. cbn [match_here]. rewrite strip_prefix_app.
  apply rep_greedy; auto.
  - destruct n as [|c n]; [congruence|]. simpl.
    apply is_digit_not_space. now inversion Hn.
  - simpl. now apply nonempty_length.
  - cbn [app]. cbn [match_here] in E1. now rewrite E1.
Qed.

(** Whatever precedes it, the occurrence after which the pattern is not
    found again is the last match of the scan. *)
Lemma findall_epoch_last pre ws n m post :
  ws <> [] -> all_in is_space ws ->
  n <> [] -> all_in is_digit n ->
  m <> [] -> all_in is_digit m ->
  stops is_digit post ->
  findall_from epoch_pattern 0 post = [] ->
  exists found,
    findall_from epoch_pattern 0
      (pre ++ chars "Epoch" ++ ws ++ n ++ chars "/" ++ m ++ post)
    = found ++ [[n; m]].
Proof.
  intros Hws0 Hws Hn0 Hn Hm0 Hm Hpost Hnone.
  pose proof (match_here_epoch ws n m post Hws0 Hws Hn0 Hn Hm0 Hm Hpost)
    as Hmatch.
  set (u := chars "poch" ++ ws ++ n ++ chars "/" ++ m).
  assert (Hocc : chars "Epoch" ++ ws ++ n ++ chars "/" ++ m ++ post
                 = "E"%char :: (u ++ post)).
  { unfold u. change (chars "Epoch") with ("E"%char :: chars "poch").
    now rewrite <- !app_assoc. }
  rewrite Hocc in Hmatch |- *. clear Hocc. clearbody u.
  destruct (findall_from_no_cross epoch_pattern "E"%char
              epoch_occurrence_one_E pre (u ++ post) 0 ltac:(lia))
    as (found & Hfound).
  exists found. rewrite Hfound. f_equal.
  rewrite findall_from_cons_0, Hmatch. f_equal.
  replace (length ("E"%char :: u ++ post) - length post - 1) with (length u)
    by (simpl; rewrite length_app; lia).
  now rewrite findall_from_skip.
Qed.

End EpochFacts.

(* ------------------------------------------------------------------ *)
(** ** The orchestrator *)
(* ------------------------------------------------------------------ *)

Module RunProofs.
Import Py Env Ultra UltraSpec Samples.

(** The record returned, by outcome of the process and of the
    extraction. *)
Lemma run_ultralytics_completed w args returncode out err :
  subprocess_run w ("yolo" :: args) = Completed returncode out err ->
  run_ultralytics w args
  = match _parse_metrics_from_output w out err with
    | Ok found =>
        {| command := join " " ("yolo" :: args);
           return_code := Some returncode; stdout := out; stderr := err;
           metrics := found; artifacts := _find_artifacts w;
           success := (returncode =? 0)%Z |}
    | Raise msg =>
        {| command := join " " ("yolo" :: args);
           return_code := Some (-1)%Z; stdout := out;
           stderr := "Unexpected error: " +:+ msg;
           metrics := ∅; artifacts := []; success := false |}
    end.
Proof.
  intros H. unfold run_ultralytics, try_block. rewrite H.
  now destruct (_parse_metrics_from_output w out err).
Qed.

Lemma run_ultralytics_raised w args e :
  subprocess_run w ("yolo" :: args) = Raised e ->
  run_ultralytics w args
  = except e
      {| command := join " " ("yolo" :: args); return_code := None;
         stdout := ""; stderr := ""; metrics := ∅; artifacts := [];
         success := false |}.
Proof. intros H. unfold run_ultralytics, try_block. now rewrite H. Qed.

(** C1, as the code has it: when the process times out or cannot be
    launched, the remaining stages are skipped and the record keeps the
    empty metrics and artifacts it started with; when the process
    completes, whatever its exit status, and the extraction returns a
    mapping, the metrics are that mapping and the artifacts are those
    of the scan. *)
Theorem run_ultralytics_stages (w : World) (args : list string) :
  match subprocess_run w ("yolo" :: args) with
  | Raised _ =>
      metrics (run_ultralytics w args) = ∅
      /\ artifacts (run_ultralytics w args) = []
  | Completed _ out err =>
      match _parse_metrics_from_output w out err with
      | Ok found =>
          metrics (run_ultralytics w args) = found
          /\ artifacts (run_ultralytics w args) = _find_artifacts w
      | Raise _ => True
      end
  end.
Proof.
  destruct (subprocess_run w ("yolo" :: args)) as [rc out err|e] eqn:E.
  - rewrite (run_ultralytics_completed _ _ _ _ _ E).
    destruct (_parse_metrics_from_output w out err);
      [split; reflexivity|exact I].
  - rewrite (run_ultralytics_raised _ _ _ E).
    destruct e; split; reflexivity.
Qed.

(** C1 as stated fails: after a timeout with result files and
    artifacts on disk, the extraction over the captured (empty) output
    and the artifact scan would both find something, yet the record
    returned has no metrics and no artifacts. *)
Lemma run_ultralytics_timeout_skips_stages :
  subprocess_run timed_out_world ["yolo"; "train"] = Raised TimeoutExpired
  /\ _find_artifacts timed_out_world
     = ["runs/train/exp/args.yaml"; "runs/train/exp/best.pt";
        "runs/train/exp/results.json"]
  /\ artifacts (run_ultralytics timed_out_world ["train"]) = []
  /\ (exists found,
        _parse_metrics_from_output timed_out_world "" "" = Ok found
        /\ found !! "file_results" = Some (PList [PInt 1; PInt 2]))
  /\ metrics (run_ultralytics timed_out_world ["train"]) !! "file_results"
     = None.
Proof.
  split; [reflexivity|]. split; [vm_compute; reflexivity|].
  split; [reflexivity|]. split; [|reflexivity].
  eexists. split; [reflexivity|]. vm_compute. reflexivity.
Qed.

(** C2: whatever the outcome of the call, the record returned has
    [success] equal to [return_code == 0]. *)
Theorem success_iff_return_code_zero (w : World) (args : list string) :
  outcome_well_formed (subprocess_run w ("yolo" :: args)) = true ->
  success (run_ultralytics w args)
  = return_code_is_zero (run_ultralytics w args).
Proof.
  intros Hwf.
  destruct (subprocess_run w ("yolo" :: args)) as [rc out err|e] eqn:E.
  - rewrite (run_ultralytics_completed _ _ _ _ _ E).
    destruct (_parse_metrics_from_output w out err); [|reflexivity].
    unfold return_code_is_zero. simpl. now destruct rc.
  - rewrite (run_ultralytics_raised _ _ _ E).
    destruct e as [|rc out err|msg]; try reflexivity.
    unfold return_code_is_zero. simpl in *.
    destruct rc; [discriminate|reflexivity|reflexivity].
Qed.

Lemma success_iff_return_code_zero_witness :
  outcome_well_formed
    (subprocess_run
       (with_outcome (Completed 0 training_log "") trained_world)
       ["yolo"; "train"]) = true
  /\ success
       (run_ultralytics
          (with_outcome (Completed 0 training_log "") trained_world)
          ["train"])
     = return_code_is_zero
         (run_ultralytics
            (with_outcome (Completed 0 training_log "") trained_world)
            ["train"]).
Proof.
  split; [reflexivity|].
  apply (success_iff_return_code_zero
           (with_outcome (Completed 0 training_log "") trained_world)
           ["train"]).
  reflexivity.
Defined.

(** C3, as the code has it: the call always returns a record.  After a
    timeout the record has the sentinel [-1] as return code, no
    standard output, the fixed diagnostic as standard error, and no
    success.  After any other exception of the invocation (an
    executable that is missing or cannot be run) it has the sentinel,
    no standard output, the error text after the prefix
    [Unexpected error: ], and no success.  A process that completes,
    be it with the negative status of a termination by signal, is not
    such a failure.  When the extraction that follows returns, the
    record carries the status and the two streams of the process as
    they are, and success says whether the status is 0.  When the
    extraction raises, the record has the sentinel in place of the
    status, the standard output of the process, the message of the
    extraction after the prefix in place of the standard error of the
    process, and no success. *)
Theorem run_ultralytics_failure_record (w : World) (args : list string) :
  match subprocess_run w ("yolo" :: args) with
  | Raised TimeoutExpired =>
      return_code (run_ultralytics w args) = Some (-1)%Z
      /\ stdout (run_ultralytics w args) = ""
      /\ stderr (run_ultralytics w args) = "Command timed out after 1 hour"
      /\ success (run_ultralytics w args) = false
  | Raised (OtherException msg) =>
      return_code (run_ultralytics w args) = Some (-1)%Z
      /\ stdout (run_ultralytics w args) = ""
      /\ stderr (run_ultralytics w args) = "Unexpected error: " +:+ msg
      /\ success (run_ultralytics w args) = false
  | Raised (CalledProcessError returncode out err) =>
      return_code (run_ultralytics w args) = Some returncode
      /\ stdout (run_ultralytics w args) = or_empty out
      /\ stderr (run_ultralytics w args) = or_empty err
      /\ success (run_ultralytics w args) = false
  | Completed returncode out err =>
      match _parse_metrics_from_output w out err with
      | Ok _ =>
          return_code (run_ultralytics w args) = Some returncode
          /\ stdout (run_ultralytics w args) = out
          /\ stderr (run_ultralytics w args) = err
          /\ success (run_ultralytics w args) = (returncode =? 0)%Z
      | Raise msg =>
          return_code (run_ultralytics w args) = Some (-1)%Z
          /\ stdout (run_ultralytics w args) = out
          /\ stderr (run_ultralytics w args) = "Unexpected error: " +:+ msg
          /\ success (run_ultralytics w args) = false
      end
  end.
Proof.
  destruct (subprocess_run w ("yolo" :: args)) as [rc out err|e] eqn:E.
  - rewrite (run_ultralytics_completed _ _ _ _ _ E).
    destruct (_parse_metrics_from_output w out err); repeat split.
  - rewrite (run_ultralytics_raised _ _ _ E).
    destruct e; repeat split.
Qed.

(** C3 as stated fails for a process terminated abnormally: killed by
    signal 9, it is reported with the return code [-9], not the
    sentinel [-1], and with its own standard error. *)
Lemma run_ultralytics_killed_not_sentinel :
  subprocess_run killed_world ["yolo"; "train"] = Completed (-9) "" "Killed"
  /\ return_code (run_ultralytics killed_world ["train"]) = Some (-9)%Z
  /\ return_code (run_ultralytics killed_world ["train"]) <> Some (-1)%Z
  /\ stderr (run_ultralytics killed_world ["train"]) = "Killed".
Proof.
  split; [reflexivity|]. split; [reflexivity|].
  split; [|reflexivity]. vm_compute. discriminate.
Qed.

End RunProofs.

(* ------------------------------------------------------------------ *)
(** ** The extractor and the result files *)
(* ------------------------------------------------------------------ *)

Module ExtractProofs.
Import Py Env Ultra UltraSpec Samples ScanFacts.

(** *** Paths of the result files found *)

Lemma chars_app (a b : string) : chars (a +:+ b) = chars a ++ chars b.
Proof.
  induction a as [|c a IH]; [reflexivity|].
  change (String c a +:+ b) with (String c (a +:+ b)).
  unfold chars in *. simpl. now rewrite IH.
Qed.

Lemma strip_prefix_weaken (l s r t : text) :
  Re.strip_prefix l s = Some r -> Re.strip_prefix l (s ++ t) = Some (r ++ t).
Proof.
  revert s; induction l as [|a l IH]; intros s H; simpl in *.
  - now inversion H.
  - destruct s as [|c s]; [discriminate|]. simpl.
    destruct (Ascii.eqb a c); [now apply IH|discriminate].
Qed.

Lemma endswith_app (a b suffix : string) :
  endswith b suffix = true -> endswith (a +:+ b) suffix = true.
Proof.
  unfold endswith. rewrite chars_app, rev_app_distr.
  destruct (Re.strip_prefix (rev (chars suffix)) (rev (chars b))) as [r|] eqn:E;
    [|discriminate].
  intros _. now rewrite (strip_prefix_weaken _ _ _ _ E).
Qed.

Lemma is_results_file_join root file :
  is_results_file file = true ->
  is_results_file (os_path_join root file) = true.
Proof.
  unfold is_results_file, os_path_join. intros H.
  apply orb_prop in H. destruct H as [H|H];
    [apply orb_prop in H; destruct H as [H|H]|];
    destruct (String.eqb root "" || endswith root "/");
    rewrite ?(endswith_app _ _ _ H);
    rewrite ?(endswith_app root ("/" +:+ file) _ (endswith_app "/" file _ H));
    now rewrite ?orb_true_r.
Qed.

(** Every path found has one of the three extensions. *)
Lemma find_results_files_extension w file_path :
  In file_path (_find_results_files w) -> is_results_file file_path = true.
Proof.
  unfold _find_results_files. intros H.
  apply in_flat_map in H. destruct H as (search_path & _ & H).
  destruct (path_exists w search_path); [|destruct H].
  apply in_flat_map in H. destruct H as ([root files] & _ & H).
  apply in_map_iff in H. destruct H as (file & <- & H).
  apply filter_In in H. destruct H as [_ H].
  now apply is_results_file_join.
Qed.

(** *** The loop over the result files *)

Lemma collect_files_app w files1 files2 (m : MetricsMap) :
  collect_files w (files1 ++ files2) m
  = collect_files w files2 (collect_files w files1 m).
Proof. unfold collect_files. apply fold_left_app. Qed.

Lemma collect_files_ext w1 w2 files (m : MetricsMap) :
  (forall file_path, In file_path files ->
     _parse_results_file w1 file_path = _parse_results_file w2 file_path) ->
  collect_files w1 files m = collect_files w2 files m.
Proof.
  unfold collect_files. revert m.
  induction files as [|f files IH]; intros m H; [reflexivity|].
  simpl. rewrite (H f) by now left.
  apply IH. intros p Hp. apply H. now right.
Qed.

(** Files whose entries go under other keys leave a key alone. *)
Lemma collect_files_other_keys w files (m : MetricsMap) k :
  (forall file_path, In file_path files ->
     is_results_file file_path = true /\ fst (file_entry w file_path) <> k) ->
  collect_files w files m !! k = m !! k.
Proof.
  unfold collect_files. revert m.
  induction files as [|f files IH]; intros m H; [reflexivity|].
  simpl. rewrite IH by (intros p Hp; apply H; now right).
  destruct (H f ltac:(now left)) as [Hext Hk].
  unfold update. rewrite (parse_results_file_entry _ _ Hext).
  rewrite lookup_union_r; [reflexivity|].
  now apply lookup_singleton_ne.
Qed.

(** C9, as the code has it: for every result file found,
    [_parse_results_file] returns (it never raises) the single entry of
    the file: the decoded content under [file_] followed by the stem of
    the path when the file could be opened and decoded, the error
    message under that key followed by [_error] otherwise.  The loop
    over the files goes on whatever the files before were: the entry is
    in the mapping once the file has had its turn.  It is still there
    at the end, and in the mapping that the extractor returns, when no
    later file writes the same key. *)
Theorem result_files_collected (w : World)
    (files_before files_after : list string) (file_path : string)
    (metrics : MetricsMap) :
  _find_results_files w = files_before ++ file_path :: files_after ->
  _parse_results_file w file_path
  = match load w file_path with
    | Ok data => {[ file_key file_path := data ]}
    | Raise msg => {[ file_error_key file_path := PStr msg ]}
    end
  /\ collect_files w (files_before ++ [file_path]) metrics
       !! fst (file_entry w file_path)
     = Some (snd (file_entry w file_path))
  /\ ((forall later, In later files_after ->
         fst (file_entry w later) <> fst (file_entry w file_path)) ->
      collect_files w (_find_results_files w) metrics
        !! fst (file_entry w file_path)
      = Some (snd (file_entry w file_path))
      /\ (forall out err found,
            _parse_metrics_from_output w out err = Ok found ->
            found !! fst (file_entry w file_path)
            = Some (snd (file_entry w file_path)))).
Proof.
  intros Hfound.
  assert (Hin : forall p, In p (file_path :: files_after) ->
                          is_results_file p = true).
  { intros p Hp. apply (find_results_files_extension w).
    rewrite Hfound. apply in_or_app. now right. }
  assert (Hext : is_results_file file_path = true) by (apply Hin; now left).
  assert (Hturn : collect_files w (files_before ++ [file_path]) metrics
                    !! fst (file_entry w file_path)
                  = Some (snd (file_entry w file_path))).
  { rewrite collect_files_app. unfold collect_files at 1. simpl.
    unfold update. rewrite (parse_results_file_entry _ _ Hext).
    apply lookup_union_Some_l. apply lookup_singleton_eq. }
  split; [|split; [exact Hturn|]].
  - rewrite (parse_results_file_entry _ _ Hext). unfold file_entry.
    now destruct (load w file_path).
  - intros Hlater.
    assert (Hend : forall m0 : MetricsMap,
               collect_files w (_find_results_files w) m0
                 !! fst (file_entry w file_path)
               = Some (snd (file_entry w file_path))).
    { intros m0. rewrite Hfound.
      change (file_path :: files_after) with ([file_path] ++ files_after).
      rewrite app_assoc, collect_files_app.
      rewrite collect_files_other_keys;
        [|intros p Hp; split; [apply Hin; now right|now apply Hlater]].
      rewrite collect_files_app. unfold collect_files at 1. simpl.
      unfold update. rewrite (parse_results_file_entry _ _ Hext).
      apply lookup_union_Some_l. apply lookup_singleton_eq. }
    split; [apply Hend|].
    intros out err found Hret. rewrite extractor_as_scans in Hret.
    apply bind_Ok_inv in Hret. destruct Hret as (scanned_map & _ & Hret).
    inversion Hret; subst found. apply Hend.
Qed.

Lemma result_files_collected_witness :
  _parse_results_file trained_world "runs/train/exp/results.json"
  = {[ "file_results" := PList [PInt 1; PInt 2] ]}
  /\ _parse_results_file trained_world "runs/train/exp/args.yaml"
     = {[ "file_args_error" := PStr "mapping values are not allowed here" ]}
  /\ (forall found,
        _parse_metrics_from_output trained_world training_log "" = Ok found ->
        found !! "file_results" = Some (PList [PInt 1; PInt 2])
        /\ found !! "file_args_error"
           = Some (PStr "mapping values are not allowed here")).
Proof.
  pose proof (result_files_collected trained_world []
                ["runs/train/exp/args.yaml"] "runs/train/exp/results.json" ∅
                eq_refl) as [Hjson [_ Hend_json]].
  pose proof (result_files_collected trained_world
                ["runs/train/exp/results.json"] []
                "runs/train/exp/args.yaml" ∅ eq_refl) as [Hyaml [_ Hend_yaml]].
  split; [exact Hjson|]. split; [exact Hyaml|].
  intros found Hret. split.
  - apply (proj2 (Hend_json
                    ltac:(intros later [<-|[]]; vm_compute; discriminate))
             training_log "" found Hret).
  - apply (proj2 (Hend_yaml ltac:(intros later []))
             training_log "" found Hret).
Defined.

(** C9 as stated fails when two files write the same key.  The
    well-formed [a_error.json] and the malformed [a.json] are both
    found; the content of the first and the error message of the second
    both go under [file_a_error]; the mapping returned holds the error
    message alone, and the well-formed file is not collected. *)
Lemma malformed_file_hides_well_formed :
  _find_results_files clash_world
  = ["runs/val/a_error.json"; "runs/val/a.json"]
  /\ _parse_results_file clash_world "runs/val/a_error.json"
     = {[ "file_a_error" := PList [PInt 1; PInt 2] ]}
  /\ _parse_results_file clash_world "runs/val/a.json"
     = {[ "file_a_error"
          := PStr "Expecting value: line 1 column 5 (char 4)" ]}
  /\ _parse_metrics_from_output clash_world "" ""
     = Ok {[ "file_a_error"
             := PStr "Expecting value: line 1 column 5 (char 4)" ]}.
Proof. repeat split; vm_compute; reflexivity. Qed.

(** *** The text scans *)

(** The scans all return when every last match can be converted. *)
Lemma run_scans_total scans output (m0 : MetricsMap) :
  (forall key p convert m,
     In (key, p, convert) scans ->
     Re.last_match (Re.findall p output) = Some m ->
     is_ok (convert m) = true) ->
  exists found, run_scans scans output m0 = Ok found.
Proof.
  revert m0; induction scans as [|[[key p] convert] rest IH]; intros m0 H.
  - now exists m0.
  - cbn [run_scans run_scan].
    assert (Hrest : forall key p convert m,
               In (key, p, convert) rest ->
               Re.last_match (Re.findall p output) = Some m ->
               is_ok (convert m) = true)
      by (intros; eapply H; [right|]; eassumption).
    destruct (Re.last_match (Re.findall p output)) as [m|] eqn:E.
    + specialize (H key p convert m ltac:(now left) E).
      destruct (convert m) as [v|]; [|discriminate]. cbn [bind].
      now apply IH.
    + cbn [bind]. now apply IH.
Qed.

(** C4, as the code has it: the extraction is a function of the two
    texts and of the result files on disk.  Whatever the environments,
    the entries that do not start with [file_] are decided by the two
    texts alone, and so is whether the extraction returns; when the
    two environments hold the same result files, decoded alike, the
    mappings returned are the same. *)
Theorem extraction_determined (w1 w2 : World) (out err : string) :
  (forall m1 m2 k,
     _parse_metrics_from_output w1 out err = Ok m1 ->
     _parse_metrics_from_output w2 out err = Ok m2 ->
     is_file_key k = false ->
     m1 !! k = m2 !! k)
  /\ is_ok (_parse_metrics_from_output w1 out err)
     = is_ok (_parse_metrics_from_output w2 out err)
  /\ (same_result_files w1 w2 ->
      _parse_metrics_from_output w1 out err
      = _parse_metrics_from_output w2 out err).
Proof.
  split; [|split].
  - intros m1 m2 k H1 H2 Hk.
    destruct (extractor_text_entries _ _ _ _ H1) as (f1 & Hf1 & Hm1 & _).
    destruct (extractor_text_entries _ _ _ _ H2) as (f2 & Hf2 & Hm2 & _).
    rewrite Hm1, Hm2 by exact Hk. congruence.
  - rewrite !extractor_as_scans.
    now destruct (run_scans text_scans (out +:+ newline +:+ err) ∅).
  - intros [Hfiles Hparse]. rewrite !extractor_as_scans.
    destruct (run_scans text_scans (out +:+ newline +:+ err) ∅) as [found|];
      [|reflexivity].
    cbn [bind]. f_equal. rewrite <- Hfiles.
    now apply collect_files_ext.
Qed.

Lemma extraction_determined_witness :
  _parse_metrics_from_output trained_world training_log ""
  = _parse_metrics_from_output timed_out_world training_log "".
Proof.
  apply (extraction_determined trained_world timed_out_world training_log "").
  split; [reflexivity|]. intros file_path _. reflexivity.
Defined.

(** C4 as stated fails: the same two texts give two different mappings
    when the result files on disk differ. *)
Lemma extraction_depends_on_files :
  _parse_metrics_from_output quiet_world training_log ""
  <> _parse_metrics_from_output trained_world training_log "".
Proof.
  intros H.
  assert (H' : match _parse_metrics_from_output quiet_world training_log "" with
               | Ok m => m !! "file_results"
               | Raise _ => None
               end
               = match _parse_metrics_from_output trained_world training_log ""
                 with
                 | Ok m => m !! "file_results"
                 | Raise _ => None
                 end) by now rewrite H.
  vm_compute in H'. discriminate.
Qed.

(** X18: last match wins.  On every text whose last matches can all be
    converted (no captured number is a malformed literal or has more
    digits than [int] accepts), the extractor returns a mapping.  For
    the epoch scan: whatever precedes it, the occurrence [Epoch n/m]
    after which the pattern occurs no more decides [current_epoch] and
    [total_epochs].  For every scan: the entry under its key is the
    conversion of the last match found, and there is no entry when
    nothing is found. *)
Theorem last_match_wins (w : World) (stdout stderr : string) :
  captures_convert (stdout +:+ newline +:+ stderr) ->
  exists found,
    _parse_metrics_from_output w stdout stderr = Ok found
    /\ (forall pre ws n m post,
          chars (stdout +:+ newline +:+ stderr)
          = pre ++ chars "Epoch" ++ ws ++ n ++ chars "/" ++ m ++ post ->
          ws <> [] -> ReSpec.all_in Re.is_space ws ->
          n <> [] -> ReSpec.all_in Re.is_digit n ->
          m <> [] -> ReSpec.all_in Re.is_digit m ->
          ReSpec.stops Re.is_digit post ->
          Re.findall_from epoch_pattern 0 post = [] ->
          found !! "current_epoch" = Some (PInt (int_value n))
          /\ found !! "total_epochs" = Some (PInt (int_value m)))
    /\ (forall key p convert,
          In (key, p, convert) text_scans ->
          match Re.last_match (Re.findall p (stdout +:+ newline +:+ stderr))
          with
          | Some m => exists v, convert m = Ok v /\ found !! key = Some v
          | None => found !! key = None
          end).
Proof.
  intros Hconv.
  set (output := stdout +:+ newline +:+ stderr) in *.
  destruct (run_scans_total text_scans output ∅ Hconv)
    as (scanned_map & Hrun).
  assert (Hret : _parse_metrics_from_output w stdout stderr
                 = Ok (collect_files w (_find_results_files w) scanned_map)).
  { rewrite extractor_as_scans. fold output. now rewrite Hrun. }
  destruct (extractor_text_entries _ _ _ _ Hret) as (f & _ & _ & Hkeys).
  fold output in Hkeys.
  assert (Hscan : forall key p convert,
             In (key, p, convert) text_scans ->
             match Re.last_match (Re.findall p output) with
             | Some m =>
                 exists v, convert m = Ok v
                   /\ collect_files w (_find_results_files w) scanned_map
                        !! key = Some v
             | None =>
                 collect_files w (_find_results_files w) scanned_map !! key
                 = None
             end).
  { intros key p convert Hin. specialize (Hkeys _ _ _ Hin).
    unfold scanned in Hkeys.
    now destruct (Re.last_match (Re.findall p output)). }
  eexists. split; [exact Hret|]. split; [|exact Hscan].
  intros pre ws n m post Htext Hws0 Hws Hn0 Hn Hm0 Hm Hpost Hnone.
  destruct (EpochFacts.findall_epoch_last pre ws n m post
              Hws0 Hws Hn0 Hn Hm0 Hm Hpost Hnone) as (before & Hlast).
  assert (Hm_last : Re.last_match (Re.findall epoch_pattern output)
                    = Some [n; m]).
  { unfold Re.last_match, Re.findall. rewrite Htext, Hlast.
    apply last_snoc. }
  split.
  - pose proof (Hscan "current_epoch" epoch_pattern (as_int Re.group1)
                  ltac:(now left)) as H.
    rewrite Hm_last in H. destruct H as (v & Hv & Hlook).
    apply as_int_value in Hv. subst v. exact Hlook.
  - pose proof (Hscan "total_epochs" epoch_pattern (as_int Re.group2)
                  ltac:(right; now left)) as H.
    rewrite Hm_last in H. destruct H as (v & Hv & Hlook).
    apply as_int_value in Hv. subst v. exact Hlook.
Qed.

Lemma training_log_converts :
  captures_convert (training_log +:+ newline +:+ "").
Proof.
  intros key p convert m Hin Hlast.
  cbv [text_scans training_scans validation_scans prediction_scans
         export_scans float_scans loss_patterns map_patterns app map In]
    in Hin.
  repeat (destruct Hin as [Heq|Hin];
          [injection Heq as <- <- <-; vm_compute in Hlast;
           first [discriminate Hlast
                 | injection Hlast as <-; vm_compute; reflexivity]|]).
  destruct Hin.
Qed.

Lemma last_match_wins_witness :
  exists found,
    _parse_metrics_from_output trained_world training_log "" = Ok found
    /\ found !! "current_epoch" = Some (PInt 5)
    /\ found !! "total_epochs" = Some (PInt 10)
    /\ found !! "mAP50" = Some (PFloat (Finite 87 (-2))).
Proof.
  destruct (last_match_wins trained_world training_log ""
              training_log_converts) as (found & Hret & Hepoch & Hscan).
  exists found. split; [exact Hret|].
  destruct (Hepoch
              (chars ("Epoch 1/10" +:+ newline +:+ "mAP50: 0.5" +:+ newline))
              (chars " ") (chars "5") (chars "10")
              (chars (newline +:+ "mAP50: 0.87" +:+ newline)))
    as [Hcurrent Htotal];
    [reflexivity | discriminate | repeat constructor
    | discriminate | repeat constructor
    | discriminate | repeat constructor
    | reflexivity | reflexivity |].
  split; [exact Hcurrent|]. split; [exact Htotal|].
  pose proof (Hscan "mAP50" (labelled_number "mAP50") as_float) as Hmap.
  destruct Hmap as (v & Hv & Hlook).
  - cbv [text_scans training_scans float_scans loss_patterns map_patterns
           app map In]. tauto.
  - vm_compute in Hv. injection Hv as <-. exact Hlook.
Defined.

(** C5: a log with two epoch lines, [Epoch 1/10] and later
    [Epoch 5/10], whose last mAP value is followed by a full stop.
    The epoch scan finds both occurrences, but the conversion of the
    capture [0.87.] by [float] raises: the extractor returns no
    mapping, and the record returned has no epoch entry instead of
    the values 5 and 10 of the last occurrence. *)
Lemma last_match_lost_on_malformed_number :
  Re.findall epoch_pattern (training_log_stop +:+ newline +:+ "")
  = [[chars "1"; chars "10"]; [chars "5"; chars "10"]]
  /\ _parse_training_metrics (training_log_stop +:+ newline +:+ "")
     = Raise "could not convert string to float: '0.87.'"
  /\ _parse_metrics_from_output quiet_world training_log_stop ""
     = Raise "could not convert string to float: '0.87.'"
  /\ metrics
       (run_ultralytics
          (with_outcome (Completed 0 training_log_stop "") quiet_world)
          ["train"]) !! "current_epoch"
     = None.
Proof. repeat split; vm_compute; reflexivity. Qed.

End ExtractProofs.

(* ------------------------------------------------------------------ *)
(** ** The argument translator *)
(* ------------------------------------------------------------------ *)

Module TranslatorProofs.
Import Py Env Ultra TranslatorSpec Samples.

(** *** The mapping *)

Lemma dict_get_set_eq k v d : dict_get k (dict_set k v d) = Some v.
Proof.
  induction d as [|[k' v'] d IH]; simpl.
  - now rewrite String.eqb_refl.
  - destruct (String.eqb k k') eqn:E; simpl; now rewrite E.
Qed.

Lemma dict_get_set_ne k k' v d :
  k' <> k -> dict_get k' (dict_set k v d) = dict_get k' d.
Proof.
  intros Hne. induction d as [|[k0 v0] d IH]; simpl.
  - apply String.eqb_neq in Hne. now rewrite Hne.
  - destruct (String.eqb k k0) eqn:E; simpl.
    + apply String.eqb_eq in E; subst k0.
      apply String.eqb_neq in Hne. now rewrite Hne.
    + now rewrite IH.
Qed.

(** Where [dict_set] puts the entry: in the place of the old one, or
    last. *)
Lemma dict_set_split k v d :
  exists before after,
    dict_set k v d = before ++ (k, v) :: after
    /\ (d = before /\ after = []
        \/ exists old, d = before ++ (k, old) :: after).
Proof.
  induction d as [|[k' v'] d IH]; simpl.
  - exists [], []. split; [reflexivity|]. now left.
  - destruct (String.eqb k k') eqn:E.
    + apply String.eqb_eq in E; subst k'.
      exists [], d. split; [reflexivity|]. right. now exists v'.
    + destruct IH as (before & after & Hset & Hd).
      exists ((k', v') :: before), after. rewrite Hset.
      split; [reflexivity|].
      destruct Hd as [[-> ->]|[old ->]]; [now left|right; now exists old].
Qed.

Lemma other_entries_set v d :
  other_entries (dict_set "device" v d) = other_entries d.
Proof.
  unfold other_entries.
  induction d as [|[k' v'] d IH]; [reflexivity|].
  cbn [dict_set].
  destruct (String.eqb "device" k') eqn:E; cbn [List.filter fst]; rewrite E;
    cbn [negb]; [reflexivity|now rewrite IH].
Qed.


(** *** The loop *)

Section Loop.

Variable str_other : pyvalue -> string.

Lemma emit_entry_tokens args entry :
  emit str_other args entry = args ++ entry_tokens str_other entry.
Proof.
  destruct entry as [key value]. unfold emit, entry_tokens. simpl.
  destruct value as [|[]| | | | |]; now rewrite ?app_nil_r.
Qed.

Lemma fold_emit args entries :
  fold_left (emit str_other) entries args
  = args ++ flat_map (entry_tokens str_other) entries.
Proof.
  revert args; induction entries as [|entry entries IH]; intros args; simpl.
  - now rewrite app_nil_r.
  - now rewrite IH, emit_entry_tokens, <- app_assoc.
Qed.


(** C8: when the mapping has no device or a null device, the tokens
    hold the flag [--device] followed by the default device, which is
    [cuda] when an accelerator is available and [cpu] otherwise, at
    the place of the device entry in the resolved mapping; a mapping
    with a non-null device is left as it is, and its tokens are those
    of its own entries. *)
Theorem device_flag_resolved (w : World) (args_dict : dict) :
  (device_missing args_dict ->
   exists before after,
     snd (parse_yolo_args str_other w args_dict)
     = before ++ ("device", PStr (default_device w)) :: after
     /\ fst (parse_yolo_args str_other w args_dict)
        = flat_map (entry_tokens str_other) before
          ++ ["--device"; default_device w]
          ++ flat_map (entry_tokens str_other) after
     /\ default_device w
        = (if TORCH_AVAILABLE w && cuda_is_available w then "cuda"
           else "cpu"))
  /\ (forall device,
        dict_get "device" args_dict = Some device -> device <> PNone ->
        snd (parse_yolo_args str_other w args_dict) = args_dict
        /\ fst (parse_yolo_args str_other w args_dict)
           = flat_map (entry_tokens str_other) args_dict).
Proof.
  split.
  - intros Hmissing.
    assert (Hres : resolve_device w args_dict
                   = dict_set "device" (PStr (default_device w)) args_dict).
    { unfold resolve_device. destruct Hmissing as [->| ->]; reflexivity. }
    destruct (dict_set_split "device" (PStr (default_device w)) args_dict)
      as (before & after & Hset & _).
    exists before, after. unfold parse_yolo_args. cbn [fst snd].
    rewrite fold_emit, Hres, Hset. split; [reflexivity|].
    split; [|reflexivity].
    now rewrite flat_map_app.
  - intros device Hget Hnot. unfold parse_yolo_args. cbn [fst snd].
    assert (Hres : resolve_device w args_dict = args_dict).
    { unfold resolve_device. rewrite Hget. now destruct device. }
    rewrite fold_emit, Hres. split; reflexivity.
Qed.

(** C10: the translator writes into the mapping it is given.  When
    the device is absent or null, the mapping that the caller holds
    after the call has the default device under [device], every other
    key has the value it had, and the other entries are the same, in
    the same order; the tokens are emitted from that mapping. *)
Theorem parse_yolo_args_writes_device (w : World) (args_dict : dict) :
  device_missing args_dict ->
  dict_get "device" (snd (parse_yolo_args str_other w args_dict))
  = Some (PStr (default_device w))
  /\ (forall key,
        key <> "device" ->
        dict_get key (snd (parse_yolo_args str_other w args_dict))
        = dict_get key args_dict)
  /\ other_entries (snd (parse_yolo_args str_other w args_dict))
     = other_entries args_dict
  /\ fst (parse_yolo_args str_other w args_dict)
     = flat_map (entry_tokens str_other)
         (snd (parse_yolo_args str_other w args_dict)).
Proof.
  intros Hmissing. unfold parse_yolo_args. cbn [fst snd].
  assert (Hres : resolve_device w args_dict
                 = dict_set "device" (PStr (default_device w)) args_dict).
  { unfold resolve_device. destruct Hmissing as [->| ->]; reflexivity. }
  rewrite Hres. split; [apply dict_get_set_eq|].
  split; [intros key Hkey; now apply dict_get_set_ne|].
  split; [apply other_entries_set|apply fold_emit].
Qed.

End Loop.



Lemma device_flag_resolved_witness :
  fst (parse_yolo_args str_unused quiet_world
         [("model", PStr "yolov8n.pt"); ("device", PNone);
          ("epochs", PInt 3)])
  = ["--model"; "yolov8n.pt"; "--device"; "cpu"; "--epochs"; "3"]
  /\ snd (parse_yolo_args str_unused trained_world [("verbose", PBool true)])
     = [("verbose", PBool true); ("device", PStr "cuda")].
Proof.
  split.
  - destruct (proj1 (device_flag_resolved str_unused quiet_world
                       [("model", PStr "yolov8n.pt"); ("device", PNone);
                        ("epochs", PInt 3)]))
      as (before & after & Hdict & Htokens & _).
    + right. reflexivity.
    + reflexivity.
  - destruct (proj1 (device_flag_resolved str_unused trained_world
                       [("verbose", PBool true)]))
      as (before & after & Hdict & _).
    + left. reflexivity.
    + reflexivity.
Defined.

Lemma parse_yolo_args_writes_device_witness :
  device_missing [("model", PStr "yolov8n.pt"); ("device", PNone)]
  /\ dict_get "device"
       (snd (parse_yolo_args str_unused quiet_world
               [("model", PStr "yolov8n.pt"); ("device", PNone)]))
     = Some (PStr "cpu")
  /\ dict_get "model"
       (snd (parse_yolo_args str_unused quiet_world
               [("model", PStr "yolov8n.pt"); ("device", PNone)]))
     = Some (PStr "yolov8n.pt").
Proof.
  assert (Hmissing : device_missing
                       [("model", PStr "yolov8n.pt"); ("device", PNone)])
    by (right; reflexivity).
  destruct (parse_yolo_args_writes_device str_unused quiet_world
              [("model", PStr "yolov8n.pt"); ("device", PNone)] Hmissing)
    as (Hdevice & Hothers & _).
  split; [exact Hmissing|]. split; [exact Hdevice|].
  rewrite Hothers by discriminate. reflexivity.
Defined.

End TranslatorProofs.

(* ------------------------------------------------------------------ *)
(** ** Extra parameters of a request *)
(* ------------------------------------------------------------------ *)

Module MainProofs.
Import Py Env Ultra Main TranslatorSpec Samples.

Section Extras.

Variable str_other : pyvalue -> string.

Lemma emit_extra_tokens args entry :
  emit_extra str_other args entry = args ++ extra_tokens str_other entry.
Proof.
  destruct entry as [key value]. unfold emit_extra, extra_tokens. simpl.
  destruct value as [|[]| | | | |]; now rewrite ?app_nil_r.
Qed.

Lemma fold_emit_extra args entries :
  fold_left (emit_extra str_other) entries args
  = args ++ flat_map (extra_tokens str_other) entries.
Proof.
  revert args; induction entries as [|entry entries IH]; intros args; simpl.
  - now rewrite app_nil_r.
  - now rewrite IH, emit_extra_tokens, <- app_assoc.
Qed.


End Extras.


End MainProofs.

(* ------------------------------------------------------------------ *)
(** ** Artifacts and result files on disk *)
(* ------------------------------------------------------------------ *)

Module DiskProofs.
Import Py Env Ultra UltraSpec ExtraSpec Samples.

Lemma insert_sorted_permutation x l : Permutation (insert_sorted x l) (x :: l).
Proof.
  induction l as [|y l IH]; simpl; [reflexivity|].
  destruct (String.leb x y); [reflexivity|].
  rewrite IH. apply perm_swap.
Qed.

Lemma sorted_permutation l : Permutation (sorted l) l.
Proof.
  induction l as [|x l IH]; simpl; [reflexivity|].
  unfold sorted in IH. now rewrite insert_sorted_permutation, IH.
Qed.

Lemma insert_sorted_hd x y l :
  str_le y x -> HdRel str_le y l -> HdRel str_le y (insert_sorted x l).
Proof.
  intros Hyx Hl. destruct l as [|z l]; simpl; [now constructor|].
  destruct (String.leb x z); constructor; [exact Hyx|].
  now inversion Hl.
Qed.

Lemma insert_sorted_Sorted x l :
  Sorted str_le l -> Sorted str_le (insert_sorted x l).
Proof.
  induction 1 as [|y l Hl IH Hhd]; simpl.
  - repeat constructor.
  - destruct (String.leb x y) eqn:E.
    + constructor; [now constructor|]. now constructor.
    + constructor; [exact IH|].
      apply insert_sorted_hd; [|exact Hhd].
      destruct (String.leb_total x y) as [H|H]; [congruence|exact H].
Qed.

Lemma sorted_Sorted l : Sorted str_le (sorted l).
Proof.
  induction l as [|x l IH]; simpl; [constructor|].
  now apply insert_sorted_Sorted.
Qed.

(** X1: the artifact list is in ascending order (each path is at most
    the path that follows it, in the order of strings by code point)
    and holds exactly the paths that the walks of the existing output
    directories come across, each as often as it is come across:
    nothing is dropped and no duplicate is removed. *)
Theorem find_artifacts_sorted_walk (w : World) :
  Sorted str_le (_find_artifacts w)
  /\ Permutation (_find_artifacts w) (walked_artifacts w)
  /\ length (_find_artifacts w) = length (walked_artifacts w)
  /\ (forall path, In path (_find_artifacts w) <-> In path (walked_artifacts w)).
Proof.
  assert (H : Permutation (_find_artifacts w) (walked_artifacts w))
    by apply sorted_permutation.
  split; [unfold _find_artifacts; apply sorted_Sorted|].
  split; [exact H|]. split; [now apply Permutation_length|].
  intros path. split; intros Hin.
  - now apply (Permutation_in _ H).
  - now apply (Permutation_in _ (Permutation_sym H)).
Qed.

(** X2: when none of the well-known directories exists, the scan for
    result files and the scan for artifacts both return the empty list,
    whatever the walks would yield. *)
Theorem nothing_found_without_directories (w : World) :
  (forall path, In path (search_paths ++ output_dirs) ->
     path_exists w path = false) ->
  _find_results_files w = [] /\ _find_artifacts w = [].
Proof.
  intros Hnone.
  unfold _find_results_files, _find_artifacts.
  assert (Hall : forall dirs (f : string -> list string),
             (forall path, In path dirs -> path_exists w path = false) ->
             flat_map (fun dir => if path_exists w dir then f dir else [])
               dirs = []).
  { intros dirs f Hdirs. induction dirs as [|dir dirs IH]; [reflexivity|].
    simpl. rewrite (Hdirs dir) by now left.
    apply IH. intros path Hp. apply Hdirs. now right. }
  rewrite !Hall; [split; reflexivity| |];
    intros path Hp; apply Hnone; apply in_or_app; [now right|now left].
Qed.

Lemma nothing_found_without_directories_witness :
  _find_results_files quiet_world = [] /\ _find_artifacts quiet_world = [].
Proof.
  apply (nothing_found_without_directories quiet_world).
  intros path _. reflexivity.
Defined.

(** X3: whatever the path, [_parse_results_file] returns at most one
    entry, under a key that starts with [file_]; it returns no entry
    exactly when the file can be opened and its name has none of the
    three extensions (a file that cannot be opened gives an error entry
    even then). *)
Theorem parse_results_file_shape (w : World) (file_path : string) :
  (forall k, is_Some (_parse_results_file w file_path !! k) ->
     is_file_key k = true
     /\ (k = file_key file_path \/ k = file_error_key file_path))
  /\ size (_parse_results_file w file_path) <= 1
  /\ (_parse_results_file w file_path = ∅ <->
      is_ok (open_file w file_path) = true
      /\ is_results_file file_path = false).
Proof.
  unfold _parse_results_file, is_results_file.
  assert (Hsingle : forall (k0 : string) (v : pyvalue),
             is_file_key k0 = true ->
             (k0 = file_key file_path \/ k0 = file_error_key file_path) ->
             (forall k, is_Some ((<[k0 := v]> (∅ : MetricsMap)) !! k) ->
                is_file_key k = true
                /\ (k = file_key file_path \/ k = file_error_key file_path))
             /\ size (<[k0 := v]> (∅ : MetricsMap)) <= 1
             /\ (<[k0 := v]> (∅ : MetricsMap) = ∅ <-> False)).
  { intros k0 v Hk0 Hor. split; [|split].
    - intros k [x Hx]. destruct (decide (k = k0)) as [->|Hne]; [auto|].
      rewrite lookup_insert_ne, lookup_empty in Hx by congruence.
      discriminate.
    - rewrite insert_empty, map_size_singleton. lia.
    - split; [|tauto]. intros H. now apply insert_non_empty in H. }
  assert (Hok := fun data =>
            Hsingle (file_key file_path) data
              (ScanFacts.file_key_is_file_key _) ltac:(tauto)).
  assert (Herr := fun msg =>
            Hsingle (file_error_key file_path) (PStr msg)
              (ScanFacts.file_error_key_is_file_key _) ltac:(tauto)).
  clear Hsingle.
  destruct (open_file w file_path) as [f|msg]; cbn [bind is_ok].
  - destruct (endswith file_path ".json") eqn:Ej.
    + rewrite orb_true_r.
      destruct (json_load w f) as [data|msg]; cbn [bind];
        [destruct (Hok data) as (H1 & H2 & H3)
        |destruct (Herr msg) as (H1 & H2 & H3)];
        (split; [exact H1|split; [exact H2|]]);
        rewrite H3; intuition discriminate.
    + rewrite orb_false_r.
      destruct (endswith file_path ".yaml" || endswith file_path ".yml").
      * destruct (yaml_safe_load w f) as [data|msg]; cbn [bind];
          [destruct (Hok data) as (H1 & H2 & H3)
          |destruct (Herr msg) as (H1 & H2 & H3)];
          (split; [exact H1|split; [exact H2|]]);
          rewrite H3; intuition discriminate.
      * cbn [bind]. split; [|split].
        -- intros k [x Hx]. rewrite lookup_empty in Hx. discriminate.
        -- rewrite map_size_empty. lia.
        -- tauto.
  - destruct (Herr msg) as (H1 & H2 & H3).
    split; [exact H1|split; [exact H2|]].
    rewrite H3. intuition discriminate.
Qed.

(** *** The key of a result file *)

Lemma take_until_app stop (x y : text) c :
  (forall a, In a x -> stop a = false) -> stop c = true ->
  take_until stop (x ++ c :: y) = x.
Proof.
  intros Hx Hc. induction x as [|a x IH]; simpl.
  - now rewrite Hc.
  - rewrite (Hx a) by now left. f_equal. apply IH.
    intros b Hb. apply Hx. now right.
Qed.

Lemma take_until_all stop (x : text) :
  (forall a, In a x -> stop a = false) -> take_until stop x = x.
Proof.
  intros Hx. induction x as [|a x IH]; simpl; [reflexivity|].
  rewrite (Hx a) by now left. f_equal. apply IH.
  intros b Hb. apply Hx. now right.
Qed.

Lemma drop_through_app stop (x y : text) c :
  (forall a, In a x -> stop a = false) -> stop c = true ->
  drop_through stop (x ++ c :: y) = Some y.
Proof.
  intros Hx Hc. induction x as [|a x IH]; simpl.
  - now rewrite Hc.
  - rewrite (Hx a) by now left. apply IH.
    intros b Hb. apply Hx. now right.
Qed.

Lemma eqb_false_of_lacks c (x : text) :
  ~ In c x -> forall a, In a (rev x) -> Ascii.eqb a c = false.
Proof.
  intros Hc a Ha. apply Ascii.eqb_neq. intros ->.
  apply Hc. now apply in_rev.
Qed.

Lemma last_component_scan (x r component : text) :
  ~ In slash x ->
  last_component (rev x ++ r) component = last_component r (x ++ component).
Proof.
  revert component. induction x as [|a x IH] using rev_ind;
    intros component Hx; [reflexivity|].
  rewrite rev_app_distr. cbn [rev app last_component].
  assert (Ha : is_slash a = false).
  { apply Ascii.eqb_neq. intros ->. apply Hx. apply in_or_app.
    right. now left. }
  rewrite Ha, IH, <- app_assoc; [reflexivity|].
  intros Hin. apply Hx. apply in_or_app. now left.
Qed.

Lemma path_name_after_slash (dir file : text) :
  ~ In slash file -> real_component file = true ->
  path_name (dir ++ slash :: file) = file.
Proof.
  intros Hfile Hreal. unfold path_name.
  rewrite rev_app_distr. cbn [rev]. rewrite <- app_assoc. cbn [app].
  rewrite last_component_scan by exact Hfile.
  rewrite app_nil_r. cbn [last_component].
  unfold is_slash. now rewrite Ascii.eqb_refl, Hreal.
Qed.

Lemma path_name_plain (file : text) :
  ~ In slash file -> real_component file = true -> path_name file = file.
Proof.
  intros Hfile Hreal. unfold path_name.
  rewrite <- (app_nil_r (rev file)).
  rewrite last_component_scan by exact Hfile.
  rewrite app_nil_r. cbn [last_component]. now rewrite Hreal.
Qed.

Lemma name_stem_suffix (base ext : text) :
  base <> [] -> ext <> [] -> ~ In dot ext ->
  name_stem (base ++ dot :: ext) = base.
Proof.
  intros Hbase Hext Hdot. unfold name_stem.
  rewrite rev_app_distr. simpl. rewrite <- app_assoc. simpl.
  assert (Hstop : forall a, In a (rev ext) -> is_dot a = false)
    by (apply eqb_false_of_lacks; exact Hdot).
  rewrite take_until_app, drop_through_app;
    try exact Hstop; try apply Ascii.eqb_refl.
  destruct (rev base) as [|b rb] eqn:Eb.
  - apply (f_equal (@rev ascii)) in Eb. rewrite rev_involutive in Eb.
    now destruct Hbase.
  - destruct (rev ext) as [|e re] eqn:Ee.
    + apply (f_equal (@rev ascii)) in Ee. rewrite rev_involutive in Ee.
      now destruct Hext.
    + rewrite <- Eb. apply rev_involutive.
Qed.

Lemma endswith_slash_split (root : string) :
  endswith root "/" = true -> exists dir, chars root = dir ++ [slash].
Proof.
  unfold endswith. intros H.
  destruct (Re.strip_prefix (rev (chars "/")) (rev (chars root)))
    as [r|] eqn:E; [|discriminate].
  apply ReFacts.strip_prefix_Some in E.
  apply (f_equal (@rev ascii)) in E. rewrite rev_involutive in E.
  exists (rev r). rewrite E. now rewrite rev_app_distr.
Qed.

Lemma chars_nonempty (s : string) : s <> "" -> chars s <> [].
Proof. destruct s; [congruence|discriminate]. Qed.

(** X4: the key of a result file depends on its base name alone.  For
    a file [base.ext] found in any directory, where neither part is
    empty or holds a dot or a slash, the key is [file_base] (and the
    error key [file_base_error]): the directory and the extension do
    not tell files apart. *)
Theorem file_key_of_joined_path (root base ext : string) :
  base <> "" -> ext <> "" ->
  lacks dot base -> lacks slash base -> lacks dot ext -> lacks slash ext ->
  file_key (os_path_join root (base +:+ "." +:+ ext)) = "file_" +:+ base
  /\ file_error_key (os_path_join root (base +:+ "." +:+ ext))
     = "file_" +:+ base +:+ "_error".
Proof.
  intros Hbase Hext Hbd Hbs Hed Hes.
  assert (Hfile : chars (base +:+ "." +:+ ext)
                  = chars base ++ dot :: chars ext).
  { now rewrite !ExtractProofs.chars_app. }
  assert (Hslash : ~ In slash (chars base ++ dot :: chars ext)).
  { intros Hin. apply in_app_or in Hin. destruct Hin as [Hin|[Hin|Hin]].
    - now apply Hbs.
    - discriminate.
    - now apply Hes. }
  assert (Hreal : real_component (chars base ++ dot :: chars ext) = true).
  { destruct (chars base) as [|b [|b' rest]] eqn:Eb; [|reflexivity..].
    now destruct (chars_nonempty base Hbase). }
  assert (Hstem : path_stem (os_path_join root (base +:+ "." +:+ ext))
                  = base).
  { unfold path_stem.
    assert (Hname : path_name (chars (os_path_join root
                                        (base +:+ "." +:+ ext)))
                    = chars base ++ dot :: chars ext).
    { unfold os_path_join.
      destruct (String.eqb root "") eqn:Eroot; cbn [orb].
      - apply String.eqb_eq in Eroot; subst root.
        change ("" +:+ (base +:+ "." +:+ ext)) with (base +:+ "." +:+ ext).
        rewrite Hfile. now apply path_name_plain.
      - destruct (endswith root "/") eqn:Eend.
        + destruct (endswith_slash_split _ Eend) as (dir & Hdir).
          rewrite ExtractProofs.chars_app, Hdir, Hfile.
          rewrite <- app_assoc. cbn [app].
          now apply path_name_after_slash.
        + rewrite !ExtractProofs.chars_app.
          change (chars "/") with [slash]. change (chars ".") with [dot].
          cbn [app]. now apply path_name_after_slash. }
    rewrite Hname, name_stem_suffix.
    - apply string_of_list_ascii_of_string.
    - now apply chars_nonempty.
    - now apply chars_nonempty.
    - exact Hed. }
  unfold file_key, file_error_key. now rewrite Hstem.
Qed.

Lemma file_key_of_joined_path_witness :
  file_key (os_path_join "runs/train/exp" ("results" +:+ "." +:+ "json"))
  = "file_results"
  /\ file_key (os_path_join "runs/val/exp" ("results" +:+ "." +:+ "yaml"))
     = "file_results".
Proof.
  assert (Hlacks : forall c s, existsb (Ascii.eqb c) (chars s) = false ->
                               lacks c s).
  { intros c s H Hin.
    assert (Htrue : existsb (Ascii.eqb c) (chars s) = true).
    { apply existsb_exists. exists c.
      split; [exact Hin|apply Ascii.eqb_refl]. }
    congruence. }
  split.
  - apply (file_key_of_joined_path "runs/train/exp" "results" "json");
      try discriminate; apply Hlacks; reflexivity.
  - apply (file_key_of_joined_path "runs/val/exp" "results" "yaml");
      try discriminate; apply Hlacks; reflexivity.
Defined.

End DiskProofs.

(* ------------------------------------------------------------------ *)
(** ** What the extractor returns *)
(* ------------------------------------------------------------------ *)

Module ExtractorProofs.
Import Py Env Ultra UltraSpec ExtraSpec Samples ScanFacts.
Import Re ReSpec ReFacts.

(** *** Matches reported are occurrences *)

Lemma findall_from_sound p skip s m :
  In m (findall_from p skip s) -> exists w, Matches p w m.
Proof.
  revert skip; induction s as [|c s IH]; intros skip Hin; [destruct Hin|].
  destruct skip as [|n].
  - rewrite findall_from_cons_0 in Hin.
    destruct (match_here p (c :: s)) as [[groups remaining]|] eqn:E.
    + destruct Hin as [<-|Hin]; [|now apply (IH _ Hin)].
      destruct (match_here_sound _ _ _ _ E) as (w & _ & Hw). now exists w.
    + now apply (IH _ Hin).
  - rewrite findall_from_cons_S in Hin. now apply (IH _ Hin).
Qed.

Lemma last_match_sound p output m :
  last_match (findall p output) = Some m -> exists w, Matches p w m.
Proof.
  unfold last_match, findall. intros H.
  apply last_Some in H. destruct H as (l & Hl).
  apply (findall_from_sound p 0 (chars output)).
  rewrite Hl. apply in_or_app. right. now left.
Qed.

(** The captured groups are made of the characters of their classes. *)
Lemma matches_capture_classes p w groups :
  Matches p w groups -> Forall2 all_in (capture_classes p) groups.
Proof.
  induction 1 as [|l p w groups _ IH|capture cls lo p u w groups Hu _ _ IH];
    cbn [capture_classes]; [constructor|exact IH|].
  destruct capture; [now constructor|exact IH].
Qed.

(** *** Conversions of captured numbers *)

Lemma digit_value_nonneg c : is_digit c = true -> (0 <= digit_value c)%Z.
Proof.
  unfold is_digit, digit_value. intros H.
  apply andb_prop in H. destruct H as [H _]. apply N.leb_le in H. lia.
Qed.

Lemma int_value_nonneg t : all_in is_digit t -> (0 <= int_value t)%Z.
Proof.
  unfold int_value.
  assert (H : forall acc, (0 <= acc)%Z -> all_in is_digit t ->
                (0 <= fold_left (fun acc c => 10 * acc + digit_value c)
                        t acc)%Z).
  { induction t as [|c t IH]; intros acc Hacc Ht; [exact Hacc|].
    simpl. inversion Ht; subst. apply IH; [|assumption].
    pose proof (digit_value_nonneg c ltac:(assumption)). lia. }
  apply H. lia.
Qed.

Lemma digit_or_dot_not_dot c :
  is_digit_or_dot c = true -> is_dot c = false -> is_digit c = true.
Proof.
  unfold is_digit_or_dot, is_dot. intros H Hdot.
  apply orb_prop in H. destruct H as [H|H]; [exact H|].
  apply N.eqb_eq in H. unfold code in H.
  assert (Hc : c = dot).
  { rewrite <- (ascii_N_embedding c), H. reflexivity. }
  subst c. now rewrite Ascii.eqb_refl in Hdot.
Qed.

Lemma is_digit_not_dot c : is_digit c = true -> is_dot c = false.
Proof.
  unfold is_digit, is_dot. intros H. apply Ascii.eqb_neq. intros ->.
  discriminate H.
Qed.

Lemma digits_no_dot t : all_in is_digit t -> List.filter is_dot t = [].
Proof.
  induction 1 as [|c t Hc _ IH]; [reflexivity|].
  cbn [List.filter]. now rewrite (is_digit_not_dot c Hc).
Qed.

Lemma digits_some_digit t :
  all_in is_digit t -> existsb is_digit t = negb (length t =? 0)%nat.
Proof.
  destruct 1 as [|c t Hc _]; [reflexivity|].
  cbn [existsb]. now rewrite Hc.
Qed.

Lemma no_dot_digits t :
  all_in is_digit_or_dot t -> List.filter is_dot t = [] ->
  all_in is_digit t.
Proof.
  induction 1 as [|c t Hc _ IH]; [constructor|].
  cbn [List.filter]. destruct (is_dot c) eqn:Ec; [discriminate|].
  intros Hnone. constructor; [now apply digit_or_dot_not_dot|now apply IH].
Qed.

(** A text of digits and dots is made of digits, or of digits, a dot
    and the rest. *)
Lemma split_at_dot t :
  all_in is_digit_or_dot t ->
  all_in is_digit t
  \/ exists whole rest,
       t = whole ++ dot :: rest /\ all_in is_digit whole
       /\ all_in is_digit_or_dot rest.
Proof.
  induction 1 as [|c t Hc Ht IH]; [left; constructor|].
  destruct (is_dot c) eqn:Ec.
  - apply Ascii.eqb_eq in Ec. subst c. right. exists [], t.
    split; [reflexivity|]. split; [constructor|exact Ht].
  - pose proof (digit_or_dot_not_dot c Hc Ec) as Hd.
    destruct IH as [IH|(whole & rest & -> & Hwhole & Hrest)].
    + left. now constructor.
    + right. exists (c :: whole), rest.
      split; [reflexivity|]. split; [now constructor|exact Hrest].
Qed.

(** The literals of digits and dots that [float] accepts are the
    decimal literals. *)
Lemma float_literal_ok_decimal t :
  all_in is_digit_or_dot t ->
  float_literal_ok t = true <-> decimal_literal t.
Proof.
  intros Ht. unfold float_literal_ok, decimal_literal. split.
  - intros H. apply andb_prop in H. destruct H as [Hsome Hdots].
    apply Nat.leb_le in Hdots.
    destruct (split_at_dot t Ht)
      as [Hall|(whole & rest & -> & Hwhole & Hrest)].
    + left. split; [|exact Hall]. intros ->. discriminate Hsome.
    + right. rewrite List.filter_app, (digits_no_dot whole Hwhole) in Hdots.
      cbn [app List.filter] in Hdots.
      replace (is_dot dot) with true in Hdots by reflexivity.
      cbn [length] in Hdots.
      assert (Hnone : List.filter is_dot rest = []).
      { destruct (List.filter is_dot rest); [reflexivity|].
        cbn [length] in Hdots. lia. }
      pose proof (no_dot_digits rest Hrest Hnone) as Hfraction.
      exists whole, rest. repeat split; try assumption.
      intros Hempty. apply app_eq_nil in Hempty.
      destruct Hempty as [-> ->]. discriminate Hsome.
  - intros [[Hsome Hall]|(whole & fraction & -> & Hw & Hf & Hsome)].
    + rewrite (digits_some_digit t Hall), (digits_no_dot t Hall).
      destruct t; [contradiction|reflexivity].
    + rewrite existsb_app, List.filter_app, (digits_no_dot whole Hw).
      cbn [existsb List.filter app].
      replace (is_dot dot) with true by reflexivity.
      replace (is_digit dot) with false by reflexivity.
      rewrite (digits_no_dot fraction Hf).
      rewrite (digits_some_digit whole Hw), (digits_some_digit fraction Hf).
      destruct whole, fraction; try reflexivity. contradiction.
Qed.

Lemma round_decimal_nonnegative mantissa fraction :
  (0 <= mantissa)%Z -> nonnegative (round_decimal mantissa fraction).
Proof.
  intros Hm. unfold round_decimal.
  destruct (mantissa * 2 ^ 1075 <=? 10 ^ Z.of_nat fraction)%Z;
    [cbn; lia|].
  destruct (float_overflow * 10 ^ Z.of_nat fraction <=? mantissa)%Z;
    [reflexivity|].
  cbn. lia.
Qed.

Lemma py_float_nonnegative t f :
  all_in is_digit_or_dot t -> py_float t = Ok f -> nonnegative f.
Proof.
  unfold py_float. intros Ht H.
  destruct (float_literal_ok t); [|discriminate].
  inversion H; subst f; clear H.
  apply round_decimal_nonnegative.
  apply int_value_nonneg. unfold all_in in *.
  induction Ht as [|c t Hc Ht IH]; simpl; [constructor|].
  destruct (is_dot c) eqn:Ed; cbn [negb]; [exact IH|].
  constructor; [now apply digit_or_dot_not_dot|exact IH].
Qed.

Lemma as_int1_natural classes m v :
  Forall2 all_in (is_digit :: classes) m ->
  as_int group1 m = Ok v -> exists n, v = PInt n /\ (0 <= n)%Z.
Proof.
  intros Hm H. inversion Hm; subst. apply as_int_value in H.
  cbn [group1 nth] in H. eexists. split; [exact H|].
  now apply int_value_nonneg.
Qed.

Lemma as_int2_natural cls classes m v :
  Forall2 all_in (cls :: is_digit :: classes) m ->
  as_int group2 m = Ok v -> exists n, v = PInt n /\ (0 <= n)%Z.
Proof.
  intros Hm H. inversion Hm as [|? g1 ? rest _ Hrest]; subst.
  inversion Hrest; subst. apply as_int_value in H.
  cbn [group2 nth] in H. eexists. split; [exact H|].
  now apply int_value_nonneg.
Qed.

Lemma as_float_nonnegative classes m v :
  Forall2 all_in (is_digit_or_dot :: classes) m ->
  as_float m = Ok v -> exists f, v = PFloat f /\ nonnegative f.
Proof.
  intros Hm H. inversion Hm; subst. unfold as_float in H.
  cbn [group1 nth] in H.
  destruct (py_float y) as [f|] eqn:E; [|discriminate].
  inversion H; subst. exists f. split; [reflexivity|].
  now apply (py_float_nonnegative y).
Qed.

Lemma as_stripped_string m v :
  as_stripped m = Ok v -> exists s, v = PStr s.
Proof. intros H. inversion H; subst. now eexists. Qed.

(** Every scan of the battery stores a value of the shape that goes
    with its key. *)
Lemma text_scans_shape key p convert m v :
  In (key, p, convert) text_scans ->
  Forall2 all_in (capture_classes p) m ->
  convert m = Ok v -> entry_shape key v.
Proof.
  intros Hin.
  cbv [text_scans training_scans validation_scans prediction_scans
         export_scans float_scans loss_patterns map_patterns app map In]
    in Hin.
  repeat (destruct Hin as [Heq|Hin];
          [injection Heq as <- <- <-;
           cbv [epoch_pattern labelled_number precision_pattern
                  recall_pattern inference_pattern detection_pattern
                  export_pattern file_pattern capture_classes];
           unfold entry_shape, integer_keys; simpl;
           first [apply as_int1_natural | apply as_int2_natural
                 | apply as_float_nonnegative
                 | intros _; apply as_stripped_string]|]).
  destruct Hin.
Qed.

Lemma scan_of_key key :
  In key (map scan_key text_scans) ->
  exists p convert, In (key, p, convert) text_scans.
Proof.
  intros H. apply in_map_iff in H. destruct H as ([[k p] convert] & <- & H).
  now exists p, convert.
Qed.

(** *** Properties of the mapping returned *)

(** X5: the extractor returns a mapping exactly when the last match of
    every scan can be converted.  A number captured by [[\d.]+] is
    converted by [float] exactly when it is a decimal literal: digits
    alone, or digits around one dot with a digit on one side at least.
    A number captured by [\d+] is converted by [int] exactly when it
    has at least one digit and at most 4300.  So one malformed or
    oversized number at the end of any scan makes the whole extraction
    raise. *)
Theorem extraction_returns_iff (w : World) (out err : string) :
  (is_ok (_parse_metrics_from_output w out err) = true
   <-> captures_convert (out +:+ newline +:+ err))
  /\ (forall t, all_in is_digit_or_dot t ->
        is_ok (py_float t) = true <-> decimal_literal t)
  /\ (forall t, all_in is_digit t ->
        is_ok (py_int t) = true <-> 1 <= length t <= 4300).
Proof.
  split; [|split].
  - split.
    + intros Hok key p convert m Hin Hlast.
      destruct (_parse_metrics_from_output w out err) as [found|] eqn:E;
        [|discriminate].
      destruct (extractor_text_entries _ _ _ _ E) as (_ & _ & _ & Hkeys).
      specialize (Hkeys _ _ _ Hin). unfold scanned in Hkeys.
      rewrite Hlast in Hkeys. destruct Hkeys as (v & -> & _). reflexivity.
    + intros Hconv.
      destruct (ExtractProofs.run_scans_total text_scans
                  (out +:+ newline +:+ err) ∅ Hconv) as (found & Hrun).
      rewrite extractor_as_scans, Hrun. reflexivity.
  - intros t Ht. rewrite <- (float_literal_ok_decimal t Ht).
    unfold py_float. now destruct (float_literal_ok t).
  - intros t _. unfold py_int, int_max_str_digits.
    destruct t as [|c t]; [cbn; split; [discriminate|lia]|].
    destruct (length (c :: t) <=? 4300)%nat eqn:E.
    + apply Nat.leb_le in E. cbn [length] in *. split; [lia|reflexivity].
    + apply Nat.leb_gt in E. split; [discriminate|lia].
Qed.

Lemma extraction_returns_iff_witness :
  is_ok (_parse_metrics_from_output trained_world training_log "") = true
  /\ decimal_literal (chars "0.87")
  /\ ~ decimal_literal (chars "0.87.")
  /\ is_ok (py_int (chars "10")) = true.
Proof.
  destruct (extraction_returns_iff trained_world training_log "")
    as (Hret & Hfloat & Hint).
  split; [apply Hret; exact ExtractProofs.training_log_converts|].
  split; [apply (Hfloat (chars "0.87"));
          [repeat constructor|reflexivity]|].
  split; [intros H; apply (Hfloat (chars "0.87.")) in H;
          [discriminate H|repeat constructor]|].
  apply (Hint (chars "10")); [repeat constructor|simpl; lia].
Defined.

(** X6: every key of the mapping returned is one of the fourteen keys
    of the text scans or starts with [file_]. *)
Theorem extraction_keys (w : World) (out err : string) (found : MetricsMap) :
  _parse_metrics_from_output w out err = Ok found ->
  forall k, is_Some (found !! k) ->
    In k (map scan_key text_scans) \/ is_file_key k = true.
Proof.
  intros Hret k Hk.
  destruct (is_file_key k) eqn:Efile; [now right|left].
  destruct (extractor_text_entries _ _ _ _ Hret) as (m & Hrun & Htext & _).
  rewrite (Htext _ Efile) in Hk.
  destruct (run_scans_lookup _ _ _ _ Hrun text_scans_keys_distinct)
    as [Hframe _].
  destruct (in_dec String.string_dec k (map scan_key text_scans))
    as [Hin|Hout]; [exact Hin|].
  rewrite (Hframe _ Hout), lookup_empty in Hk.
  destruct Hk as [x Hx]. discriminate.
Qed.

Lemma extraction_keys_witness :
  exists found,
    _parse_metrics_from_output trained_world training_log "" = Ok found
    /\ forall k, is_Some (found !! k) ->
         In k (map scan_key text_scans) \/ is_file_key k = true.
Proof.
  destruct (_parse_metrics_from_output trained_world training_log "")
    as [found|msg] eqn:E.
  - exists found. split; [reflexivity|].
    exact (extraction_keys trained_world training_log "" found E).
  - vm_compute in E. discriminate.
Defined.

(** X7: each entry stored by a text scan has the shape that goes with
    its key: under [current_epoch], [total_epochs] and
    [total_detections] an integer that is not negative; under
    [exported_file] a string; under every other key of the scans a
    float that is not negative (the double nearest to a decimal with a
    non-negative mantissa, or positive infinity for a number too large
    for a double). *)
Theorem text_entries_shape (w : World) (out err : string)
    (found : MetricsMap) (key : string) (v : pyvalue) :
  _parse_metrics_from_output w out err = Ok found ->
  In key (map scan_key text_scans) ->
  found !! key = Some v ->
  entry_shape key v.
Proof.
  intros Hret Hkey Hv.
  destruct (scan_of_key _ Hkey) as (p & convert & Hin).
  destruct (extractor_text_entries _ _ _ _ Hret) as (_ & _ & _ & Hkeys).
  specialize (Hkeys _ _ _ Hin). unfold scanned in Hkeys.
  destruct (last_match (findall p (out +:+ newline +:+ err))) as [m|] eqn:E;
    [|congruence].
  destruct Hkeys as (v' & Hconv & Hv'). assert (v' = v) by congruence.
  subst v'.
  destruct (last_match_sound _ _ _ E) as (occ & Hocc).
  apply (text_scans_shape key p convert m v Hin); [|exact Hconv].
  now apply (matches_capture_classes p occ).
Qed.

Lemma text_entries_shape_witness :
  exists found f,
    _parse_metrics_from_output trained_world training_log "" = Ok found
    /\ found !! "mAP50" = Some (PFloat f)
    /\ nonnegative f.
Proof.
  destruct (_parse_metrics_from_output trained_world training_log "")
    as [found|msg] eqn:E; [|vm_compute in E; discriminate].
  destruct (extractor_text_entries _ _ _ _ E) as (_ & _ & _ & Hkeys).
  pose proof (Hkeys "mAP50" (labelled_number "mAP50") as_float) as Hmap.
  unfold scanned in Hmap.
  destruct (last_match
              (findall (labelled_number "mAP50")
                 (training_log +:+ newline +:+ ""))) as [m|] eqn:Em;
    [|vm_compute in Em; discriminate].
  destruct Hmap as (v & _ & Hv).
  { cbv [text_scans training_scans float_scans loss_patterns map_patterns
           app map In]. tauto. }
  destruct (text_entries_shape trained_world training_log "" found "mAP50" v
              E) as (f & -> & Hf); [|exact Hv|].
  { cbv [text_scans training_scans float_scans loss_patterns map_patterns
           validation_scans prediction_scans export_scans app map scan_key
           fst].
    simpl. tauto. }
  exists found, f. split; [reflexivity|]. split; [exact Hv|exact Hf].
Defined.

(** *** The two streams are scanned as one text *)

Lemma epoch_entries w out err (found : MetricsMap) n m :
  _parse_metrics_from_output w out err = Ok found ->
  last_match (findall epoch_pattern (out +:+ newline +:+ err)) = Some [n; m] ->
  found !! "current_epoch" = Some (PInt (int_value n))
  /\ found !! "total_epochs" = Some (PInt (int_value m)).
Proof.
  intros Hret Hlast.
  destruct (extractor_text_entries _ _ _ _ Hret) as (_ & _ & _ & Hkeys).
  split.
  - pose proof (Hkeys "current_epoch" epoch_pattern (as_int group1)
                  ltac:(now left)) as H.
    unfold scanned in H. rewrite Hlast in H.
    destruct H as (v & Hv & Hlook). apply as_int_value in Hv. subst v.
    exact Hlook.
  - pose proof (Hkeys "total_epochs" epoch_pattern (as_int group2)
                  ltac:(right; now left)) as H.
    unfold scanned in H. rewrite Hlast in H.
    destruct H as (v & Hv & Hlook). apply as_int_value in Hv. subst v.
    exact Hlook.
Qed.

(** X8: standard output and standard error are joined by a newline and
    scanned as one text, and the newline counts as white space: when
    standard output ends with [Epoch] and standard error begins with
    [n/m], the extractor reports epoch [n] of [m], although neither
    stream holds an epoch line. *)
Theorem epoch_match_straddles_streams (w : World) (before : string)
    (n m post : text) (found : MetricsMap) :
  n <> [] -> all_in is_digit n ->
  m <> [] -> all_in is_digit m ->
  stops is_digit post ->
  findall_from epoch_pattern 0 post = [] ->
  _parse_metrics_from_output w (before +:+ "Epoch")
    (str_of (n ++ chars "/" ++ m ++ post)) = Ok found ->
  found !! "current_epoch" = Some (PInt (int_value n))
  /\ found !! "total_epochs" = Some (PInt (int_value m)).
Proof.
  intros Hn0 Hn Hm0 Hm Hpost Hnone Hret.
  apply (epoch_entries _ _ _ _ _ _ Hret).
  unfold last_match, findall.
  assert (Htext : chars ((before +:+ "Epoch") +:+ newline
                         +:+ str_of (n ++ chars "/" ++ m ++ post))
                  = chars before ++ chars "Epoch" ++ chars newline ++ n
                    ++ chars "/" ++ m ++ post).
  { rewrite !ExtractProofs.chars_app. unfold chars at 4, str_of.
    rewrite list_ascii_of_string_of_list_ascii.
    now rewrite <- !app_assoc. }
  rewrite Htext.
  destruct (EpochFacts.findall_epoch_last (chars before) (chars newline)
              n m post) as (earlier & Hlast);
    [discriminate | repeat constructor | assumption.. |].
  rewrite Hlast. apply last_snoc.
Qed.

Lemma epoch_match_straddles_streams_witness :
  exists found,
    _parse_metrics_from_output quiet_world "Training Epoch" "3/50" = Ok found
    /\ found !! "current_epoch" = Some (PInt 3)
    /\ found !! "total_epochs" = Some (PInt 50).
Proof.
  destruct (_parse_metrics_from_output quiet_world "Training Epoch" "3/50")
    as [found|msg] eqn:E; [|vm_compute in E; discriminate].
  exists found. split; [reflexivity|].
  apply (epoch_match_straddles_streams quiet_world "Training "
           (chars "3") (chars "50") [] found);
    try discriminate; try (repeat constructor); try reflexivity.
  exact E.
Defined.

End ExtractorProofs.

(* ------------------------------------------------------------------ *)
(** ** The record returned, in every case *)
(* ------------------------------------------------------------------ *)

Module RunExtras.
Import Py Env Ultra UltraSpec Samples.

(** X9: the record returned always carries an integer return code,
    never [None]: the status of the process when it completed and the
    extraction returned, the status carried by a [CalledProcessError],
    and the sentinel [-1] in every other case.  Its command is always
    [yolo] followed by the arguments, separated by single spaces. *)
Theorem return_code_always_set (w : World) (args : list string) :
  (exists returncode,
     return_code (run_ultralytics w args) = Some returncode
     /\ (returncode = (-1)%Z
         \/ (exists out err,
               subprocess_run w ("yolo" :: args)
               = Completed returncode out err)
         \/ (exists out err,
               subprocess_run w ("yolo" :: args)
               = Raised (CalledProcessError returncode out err))))
  /\ command (run_ultralytics w args) = join " " ("yolo" :: args).
Proof.
  destruct (subprocess_run w ("yolo" :: args)) as [rc out err|e] eqn:E.
  - rewrite (RunProofs.run_ultralytics_completed _ _ _ _ _ E).
    destruct (_parse_metrics_from_output w out err); cbn [return_code command].
    + split; [|reflexivity]. exists rc. split; [reflexivity|].
      right. left. now exists out, err.
    + split; [|reflexivity]. exists (-1)%Z. split; [reflexivity|now left].
  - rewrite (RunProofs.run_ultralytics_raised _ _ _ E).
    destruct e as [|rc out err|msg]; (split; [|reflexivity]).
    + exists (-1)%Z. split; [reflexivity|now left].
    + exists rc. split; [reflexivity|]. right. right. now exists out, err.
    + exists (-1)%Z. split; [reflexivity|now left].
Qed.

(** X10: when the process completes but the extraction raises, the
    record reports a failure whatever the exit status was: the return
    code is the sentinel [-1], success is false, the standard error of
    the process is replaced by [Unexpected error: ] and the message,
    the metrics and the artifacts are empty; only the standard output
    is kept as captured. *)
Theorem extraction_error_overrides_status (w : World) (args : list string)
    (returncode : Z) (out err msg : string) :
  subprocess_run w ("yolo" :: args) = Completed returncode out err ->
  _parse_metrics_from_output w out err = Raise msg ->
  return_code (run_ultralytics w args) = Some (-1)%Z
  /\ success (run_ultralytics w args) = false
  /\ stdout (run_ultralytics w args) = out
  /\ stderr (run_ultralytics w args) = "Unexpected error: " +:+ msg
  /\ metrics (run_ultralytics w args) = ∅
  /\ artifacts (run_ultralytics w args) = [].
Proof.
  intros Hrun Hraise.
  rewrite (RunProofs.run_ultralytics_completed _ _ _ _ _ Hrun), Hraise.
  repeat split.
Qed.

Lemma extraction_error_overrides_status_witness :
  return_code
    (run_ultralytics
       (with_outcome (Completed 0 training_log_stop "warning") trained_world)
       ["train"]) = Some (-1)%Z
  /\ stderr
       (run_ultralytics
          (with_outcome (Completed 0 training_log_stop "warning")
             trained_world)
          ["train"])
     = "Unexpected error: could not convert string to float: '0.87.'".
Proof.
  destruct (extraction_error_overrides_status
              (with_outcome (Completed 0 training_log_stop "warning")
                 trained_world)
              ["train"] 0 training_log_stop "warning"
              "could not convert string to float: '0.87.'")
    as (Hcode & _ & _ & Herr & _).
  - reflexivity.
  - vm_compute. reflexivity.
  - split; [exact Hcode|exact Herr].
Defined.

End RunExtras.

(* ------------------------------------------------------------------ *)
(** ** The mapping of a request *)
(* ------------------------------------------------------------------ *)

Module MappingProofs.
Import Py Env Ultra Main TranslatorSpec Samples TranslatorProofs.

Lemma dict_keys_set k v d :
  map fst (dict_set k v d)
  = match dict_get k d with
    | Some _ => map fst d
    | None => map fst d ++ [k]
    end.
Proof.
  induction d as [|[k' v'] d IH]; simpl; [reflexivity|].
  destruct (String.eqb k k') eqn:E; simpl; [reflexivity|].
  rewrite IH. now destruct (dict_get k d).
Qed.

Lemma dict_get_None_keys k d : dict_get k d = None -> ~ In k (map fst d).
Proof.
  induction d as [|[k' v'] d IH]; simpl; [tauto|].
  destruct (String.eqb k k') eqn:E; [discriminate|].
  apply String.eqb_neq in E. intros H [Heq|Hin]; [congruence|].
  now apply IH.
Qed.

Lemma dict_remove_absent k d : dict_get k d = None -> dict_remove k d = d.
Proof.
  induction d as [|[k' v'] d IH]; simpl; [reflexivity|].
  destruct (String.eqb k k'); [discriminate|].
  intros H. now rewrite IH.
Qed.

Lemma dict_pop_snd k default d : snd (dict_pop k default d) = dict_remove k d.
Proof.
  unfold dict_pop. destruct (dict_get k d) eqn:E; [reflexivity|].
  symmetry. now apply dict_remove_absent.
Qed.

Lemma dict_get_remove_ne k k' d :
  k' <> k -> dict_get k' (dict_remove k d) = dict_get k' d.
Proof.
  intros Hne. induction d as [|[k0 v0] d IH]; simpl; [reflexivity|].
  destruct (String.eqb k k0) eqn:E; simpl.
  - apply String.eqb_eq in E; subst k0.
    apply String.eqb_neq in Hne. now rewrite Hne.
  - now rewrite IH.
Qed.

Lemma dict_remove_keys k d k' :
  In k' (map fst (dict_remove k d)) -> In k' (map fst d).
Proof.
  induction d as [|[k0 v0] d IH]; simpl; [tauto|].
  destruct (String.eqb k k0); simpl; [tauto|].
  intros [H|H]; [now left|right; now apply IH].
Qed.

Lemma dict_remove_unique k d :
  NoDup (map fst d) -> NoDup (map fst (dict_remove k d)).
Proof.
  induction d as [|[k0 v0] d IH]; simpl; [auto|].
  intros H. apply NoDup_cons in H. destruct H as [Hk0 Hd].
  destruct (String.eqb k k0); [exact Hd|]. simpl.
  apply NoDup_cons. split; [|now apply IH].
  intros Hin. apply Hk0. apply list_elem_of_In. apply list_elem_of_In in Hin.
  now apply (dict_remove_keys k).
Qed.

Lemma dict_get_remove_eq k d :
  NoDup (map fst d) -> dict_get k (dict_remove k d) = None.
Proof.
  induction d as [|[k0 v0] d IH]; simpl; [reflexivity|].
  intros H. apply NoDup_cons in H. destruct H as [Hk0 Hd].
  destruct (String.eqb k k0) eqn:E; simpl.
  - apply String.eqb_eq in E; subst k0.
    destruct (dict_get k d) eqn:Eg; [|reflexivity].
    exfalso. apply Hk0. apply list_elem_of_In.
    clear -Eg. induction d as [|[k1 v1] d IH]; simpl in *; [discriminate|].
    destruct (String.eqb k k1) eqn:E1.
    + apply String.eqb_eq in E1. now left.
    + right. now apply IH.
  - rewrite E. now apply IH.
Qed.

Lemma dict_remove_set_ne k k' v d :
  k <> k' -> dict_remove k (dict_set k' v d) = dict_set k' v (dict_remove k d).
Proof.
  intros Hne. induction d as [|[k0 v0] d IH]; simpl.
  - apply String.eqb_neq in Hne. now rewrite Hne.
  - destruct (String.eqb k' k0) eqn:E'; destruct (String.eqb k k0) eqn:E;
      simpl; rewrite ?E, ?E'; try reflexivity.
    + apply String.eqb_eq in E, E'. congruence.
    + now rewrite IH.
Qed.

Lemma dict_remove_set_eq k v d :
  dict_remove k (dict_set k v d) = dict_remove k d.
Proof.
  induction d as [|[k0 v0] d IH]; simpl.
  - now rewrite String.eqb_refl.
  - destruct (String.eqb k k0) eqn:E; simpl; rewrite E; [reflexivity|].
    now rewrite IH.
Qed.

Lemma resolve_device_present w d :
  exists device,
    dict_get "device" (resolve_device w d) = Some device /\ device <> PNone.
Proof.
  unfold resolve_device.
  destruct (dict_get "device" d) as [device|] eqn:E.
  - destruct device;
      try (rewrite E; eexists; split; [reflexivity|discriminate]).
    rewrite dict_get_set_eq. eexists. split; [reflexivity|discriminate].
  - rewrite dict_get_set_eq. eexists. split; [reflexivity|discriminate].
Qed.

Lemma resolve_device_idempotent w d :
  resolve_device w (resolve_device w d) = resolve_device w d.
Proof.
  destruct (resolve_device_present w d) as (device & Hget & Hnot).
  unfold resolve_device at 1. rewrite Hget. now destruct device.
Qed.

Section Translator.

Variable str_other : pyvalue -> string.

(** X11: translating a mapping a second time changes nothing: the
    mapping left by the first call already has its device, so the
    second call returns the same tokens and leaves the same mapping. *)
Theorem parse_yolo_args_idempotent (w : World) (args_dict : dict) :
  parse_yolo_args str_other w (snd (parse_yolo_args str_other w args_dict))
  = parse_yolo_args str_other w args_dict.
Proof.
  unfold parse_yolo_args. cbn [snd].
  now rewrite resolve_device_idempotent.
Qed.

(** X12: the translator keeps the keys of the mapping in place.  A
    mapping that has a device key, null or not, keeps its keys in their
    order; a mapping without one gets [device] as its last key, so the
    device flag is then the last primary flag.  Keys that were distinct
    stay distinct. *)
Theorem parse_yolo_args_keys (w : World) (args_dict : dict) :
  map fst (snd (parse_yolo_args str_other w args_dict))
  = match dict_get "device" args_dict with
    | Some _ => map fst args_dict
    | None => map fst args_dict ++ ["device"]
    end
  /\ (NoDup (map fst args_dict) ->
      NoDup (map fst (snd (parse_yolo_args str_other w args_dict)))).
Proof.
  unfold parse_yolo_args. cbn [snd].
  assert (Hkeys : map fst (resolve_device w args_dict)
                  = match dict_get "device" args_dict with
                    | Some _ => map fst args_dict
                    | None => map fst args_dict ++ ["device"]
                    end).
  { unfold resolve_device.
    destruct (dict_get "device" args_dict) as [device|] eqn:E.
    - destruct device; try reflexivity. now rewrite dict_keys_set, E.
    - now rewrite dict_keys_set, E. }
  split; [exact Hkeys|].
  intros Hnd. rewrite Hkeys.
  destruct (dict_get "device" args_dict) eqn:E; [exact Hnd|].
  apply NoDup_app. split; [exact Hnd|]. split.
  - intros k Hk Hdev. apply list_elem_of_In in Hk, Hdev.
    destruct Hdev as [<-|[]].
    now apply (dict_get_None_keys _ _ E).
  - apply NoDup_singleton.
Qed.

End Translator.

Lemma parse_yolo_args_keys_witness :
  map fst (snd (parse_yolo_args str_unused quiet_world
                  [("model", PStr "yolov8n.pt"); ("epochs", PInt 3)]))
  = ["model"; "epochs"; "device"]
  /\ NoDup (map fst (snd (parse_yolo_args str_unused quiet_world
                            [("model", PStr "yolov8n.pt");
                             ("epochs", PInt 3)]))).
Proof.
  split.
  - exact (proj1 (parse_yolo_args_keys str_unused quiet_world
                    [("model", PStr "yolov8n.pt"); ("epochs", PInt 3)])).
  - apply (proj2 (parse_yolo_args_keys str_unused quiet_world
                    [("model", PStr "yolov8n.pt"); ("epochs", PInt 3)])).
    apply (bool_decide_unpack _). vm_compute. exact I.
Defined.

End MappingProofs.

(* ------------------------------------------------------------------ *)
(** ** Requests, from the mapping to the response *)
(* ------------------------------------------------------------------ *)

Module RequestProofs.
Import Py Env Ultra Main TranslatorSpec ExtraSpec Samples TranslatorProofs.
Import MappingProofs.

Lemma primary_remove request_data :
  primary request_data
  = dict_remove "task" (dict_remove "extra_args" request_data).
Proof. unfold primary. now rewrite !dict_pop_snd. Qed.

Lemma resolve_device_get_ne w d k :
  k <> "device" -> dict_get k (resolve_device w d) = dict_get k d.
Proof.
  intros Hk. unfold resolve_device.
  destruct (dict_get "device" d) as [[| | | | | |]|];
    try reflexivity; now apply dict_get_set_ne.
Qed.

Section Request.

Variable str_other : pyvalue -> string.

(** The call, in one piece. *)
Lemma process_request_args_eq w request_data :
  process_request_args str_other w request_data
  = (if truthy (extra_args_of request_data) then
       match extra_args_of request_data with
       | PDict items =>
           Ok (flat_map (entry_tokens str_other)
                 (resolve_device w (primary request_data))
               ++ flat_map (extra_tokens str_other) items)
       | v => Raise ("'" +:+ type_name v
                     +:+ "' object has no attribute 'items'")
       end
     else
       Ok (flat_map (entry_tokens str_other)
             (resolve_device w (primary request_data))),
     resolve_device w (primary request_data)).
Proof.
  unfold process_request_args, extra_args_of.
  destruct (dict_pop "extra_args" (PDict []) request_data)
    as [extra d1] eqn:E1.
  destruct (dict_pop "task" PNone d1) as [task d2] eqn:E2.
  assert (Hprimary : primary request_data = d2)
    by (unfold primary; rewrite E1; cbn [snd]; now rewrite E2).
  rewrite Hprimary. unfold parse_yolo_args. rewrite fold_emit. cbn [app].
  assert (Hextra : extra = match dict_get "extra_args" request_data with
                           | Some v => v
                           | None => PDict []
                           end).
  { unfold dict_pop in E1.
    destruct (dict_get "extra_args" request_data); now inversion E1. }
  rewrite <- Hextra.
  destruct (truthy extra); [|reflexivity].
  destruct extra; try reflexivity.
  now rewrite MainProofs.fold_emit_extra.
Qed.

(** X13: [process_request_args] consumes the mapping it is given.
    After the call the caller's mapping has neither [extra_args] nor
    [task], it has a device that is not null, and every other key has
    the value it had. *)
Theorem process_request_args_consumes (w : World) (request_data : dict) :
  NoDup (map fst request_data) ->
  dict_get "extra_args"
    (snd (process_request_args str_other w request_data)) = None
  /\ dict_get "task"
       (snd (process_request_args str_other w request_data)) = None
  /\ (exists device,
        dict_get "device"
          (snd (process_request_args str_other w request_data))
        = Some device
        /\ device <> PNone)
  /\ (forall key,
        key <> "extra_args" -> key <> "task" -> key <> "device" ->
        dict_get key (snd (process_request_args str_other w request_data))
        = dict_get key request_data).
Proof.
  intros Hnd. rewrite process_request_args_eq. cbn [snd].
  rewrite primary_remove.
  split; [|split; [|split]].
  - rewrite resolve_device_get_ne by discriminate.
    rewrite dict_get_remove_ne by discriminate.
    now apply dict_get_remove_eq.
  - rewrite resolve_device_get_ne by discriminate.
    apply dict_get_remove_eq. now apply dict_remove_unique.
  - apply resolve_device_present.
  - intros key Hextra Htask Hdevice.
    rewrite resolve_device_get_ne by exact Hdevice.
    now rewrite !dict_get_remove_ne.
Qed.

(** X14: an [extra_args] that is not a mapping.  When the value is
    true in a condition (a non-empty string or list, a non-zero
    number, [True]), the call raises the [AttributeError] of the
    missing [items] method; when it is false ([None], an empty string
    or list, zero, [False]), the extra parameters are skipped and the
    primary tokens are returned. *)
Theorem extra_args_not_a_mapping (w : World) (request_data : dict)
    (value : pyvalue) :
  dict_get "extra_args" request_data = Some value ->
  (forall items, value <> PDict items) ->
  fst (process_request_args str_other w request_data)
  = if truthy value then
      Raise ("'" +:+ type_name value +:+ "' object has no attribute 'items'")
    else
      Ok (fst (parse_yolo_args str_other w (primary request_data))).
Proof.
  intros Hget Hnot. rewrite process_request_args_eq. cbn [fst].
  unfold extra_args_of. rewrite Hget.
  unfold parse_yolo_args. cbn [fst]. rewrite fold_emit. cbn [app].
  destruct (truthy value); [|reflexivity].
  destruct value; try reflexivity. now destruct (Hnot d).
Qed.

(** X15: the value under [task] plays no role: putting any value
    there changes neither the tokens returned nor the mapping left to
    the caller. *)
Theorem task_value_ignored (w : World) (request_data : dict)
    (task : pyvalue) :
  process_request_args str_other w (dict_set "task" task request_data)
  = process_request_args str_other w request_data.
Proof.
  rewrite !process_request_args_eq.
  assert (Hextra : extra_args_of (dict_set "task" task request_data)
                   = extra_args_of request_data).
  { unfold extra_args_of. now rewrite dict_get_set_ne by discriminate. }
  assert (Hprimary : primary (dict_set "task" task request_data)
                     = primary request_data).
  { rewrite !primary_remove.
    rewrite dict_remove_set_ne by discriminate.
    apply dict_remove_set_eq. }
  now rewrite Hextra, Hprimary.
Qed.

End Request.

Lemma process_request_args_consumes_witness :
  dict_get "extra_args"
    (snd (process_request_args str_unused quiet_world train_request)) = None
  /\ dict_get "task"
       (snd (process_request_args str_unused quiet_world train_request))
     = None
  /\ dict_get "model"
       (snd (process_request_args str_unused quiet_world train_request))
     = Some (PStr "yolov8n.pt").
Proof.
  destruct (process_request_args_consumes str_unused quiet_world
              train_request)
    as (Hextra & Htask & _ & Hothers).
  - apply (bool_decide_unpack _). vm_compute. exact I.
  - split; [exact Hextra|]. split; [exact Htask|].
    rewrite Hothers by discriminate. reflexivity.
Defined.

Lemma extra_args_not_a_mapping_witness :
  fst (process_request_args str_unused quiet_world
         [("model", PStr "yolov8n.pt"); ("extra_args", PStr "half")])
  = Raise "'str' object has no attribute 'items'"
  /\ fst (process_request_args str_unused quiet_world
            [("model", PStr "yolov8n.pt"); ("extra_args", PList [])])
     = Ok ["--model"; "yolov8n.pt"; "--device"; "cpu"].
Proof.
  split.
  - apply (extra_args_not_a_mapping str_unused quiet_world
             [("model", PStr "yolov8n.pt"); ("extra_args", PStr "half")]
             (PStr "half")); [reflexivity|discriminate].
  - apply (extra_args_not_a_mapping str_unused quiet_world
             [("model", PStr "yolov8n.pt"); ("extra_args", PList [])]
             (PList [])); [reflexivity|discriminate].
Defined.

End RequestProofs.

Module ApiProofs.
Import Py Env TranslatorSpec ExtraSpec Samples.
Import RequestProofs.

(** The command line of the record, and the fact that its return code
    is set. *)
Lemma run_command_and_code w args :
  Ultra.command (Ultra.run_ultralytics w args) = join " " ("yolo" :: args)
  /\ exists rc, Ultra.return_code (Ultra.run_ultralytics w args) = Some rc.
Proof.
  destruct (subprocess_run w ("yolo" :: args)) as [rc out err|e] eqn:E.
  - rewrite (RunProofs.run_ultralytics_completed _ _ _ _ _ E).
    destruct (Ultra._parse_metrics_from_output w out err);
      (split; [reflexivity|eexists; reflexivity]).
  - rewrite (RunProofs.run_ultralytics_raised _ _ _ E).
    destruct e; (split; [reflexivity|eexists; reflexivity]).
Qed.


(** X16: [execute_ultralytics_command] always returns a response: the
    record it receives never has [None] for the return code, so the
    response model accepts it.  The response carries the run id and
    the time stamp of the request, the command line [yolo], the
    command and the arguments, and the fields of the record as they
    are. *)
Theorem execute_always_responds (w : World) (rt : Api.Runtime)
    (command : string) (args : list string) :
  exists response,
    Api.execute_ultralytics_command w rt command args = Ok response
    /\ Api.run_id response = Api.uuid4 rt
    /\ Api.timestamp response = Api.now_isoformat rt
    /\ Api.command response = join " " ("yolo" :: command :: args)
    /\ Ultra.return_code (Ultra.run_ultralytics w (command :: args))
       = Some (Api.return_code response)
    /\ Api.stdout response
       = Ultra.stdout (Ultra.run_ultralytics w (command :: args))
    /\ Api.stderr response
       = Ultra.stderr (Ultra.run_ultralytics w (command :: args))
    /\ Api.metrics response
       = Ultra.metrics (Ultra.run_ultralytics w (command :: args))
    /\ Api.artifacts response
       = Ultra.artifacts (Ultra.run_ultralytics w (command :: args))
    /\ Api.success response
       = Ultra.success (Ultra.run_ultralytics w (command :: args)).
Proof.
  unfold Api.execute_ultralytics_command.
  destruct (run_command_and_code w (command :: args)) as [Hcmd [rc Hrc]].
  rewrite Hrc. eexists. split; [reflexivity|]. cbn.
  rewrite Hcmd. repeat split.
Qed.

Section Endpoints.

Variable str_other : pyvalue -> string.


End Endpoints.


End ApiProofs.
